(** * Bot session manager of the Discord DM dashboard

    A shallow embedding of [discord-bot/index.js] (classes [DiscordCRMBot]
    and [BotManager], the [/send-message] endpoint) and of the [messages]
    table of [supabase-schema.sql], followed by the properties of the
    message recorder, the history importer and the session registry.

    Conventions of the embedding:
    - an [async] method is a function from the state it can touch to an
      outcome (returned value or thrown value) and the state it leaves;
    - the [messages] table is the list of its rows in insertion order;
    - the messaging backend and the discord.js client are collaborators:
      what they answer is given by a [Backend] record;
    - [console.log] calls have no effect on state or result and are left out. *)

From Stdlib Require Import ZArith.
From stdpp Require Import base option list gmap strings pretty sorting.


(** ** JavaScript values, exceptions and [async] control flow *)
Module Js.

(** Values that reach a [catch] block in [index.js]. *)
Inductive thrown : Type :=
| Error (message : string)
    (** [new Error(message)], built by this file *)
| PostgrestError (code message : string)
    (** the [error] field of a supabase answer, re-thrown with [throw error] *)
| Native (name message : string).
    (** raised by the runtime or a library: [TypeError], a rejected
        discord.js or [fetch] promise *)

(** [error.message] *)
Definition message_of (e : thrown) : string :=
  match e with
  | Error m => m
  | PostgrestError _ m => m
  | Native _ m => m
  end.

(** [error.constructor.name]: the class a caller can test with [instanceof]. *)
Definition class_of (e : thrown) : string :=
  match e with
  | Error _ => "Error"
  | PostgrestError _ _ => "PostgrestError"
  | Native n _ => n
  end.

Inductive outcome (A : Type) : Type :=
| Returned (a : A)
| Threw (e : thrown).
Arguments Returned {A} a.
Arguments Threw {A} e.

(** A rejection of a library promise. *)
Record rejection : Type := { rej_name : string; rej_message : string }.

(** Truthiness of a string: the empty string is falsy. *)
Definition truthy (s : string) : bool := negb (String.eqb s EmptyString).

(** [a || b] where [a] may be [undefined]. *)
Definition or_else (a : option string) (b : string) : string :=
  match a with
  | Some s => if truthy s then s else b
  | None => b
  end.

(** [x.id] on a possibly undefined [x] *)
Definition undefined_read (prop : string) : thrown :=
  Native "TypeError"
    ("Cannot read properties of undefined (reading '" +:+ prop +:+ "')").

(** An [async] computation over a state [S]. Writes made before a
    [throw] stay: nothing is rolled back. *)
Definition M (S A : Type) : Type := S → outcome A * S.

Definition ret {S A} (a : A) : M S A := λ s, (Returned a, s).
Definition throw {S A} (e : thrown) : M S A := λ s, (Threw e, s).
Definition bind {S A B} (m : M S A) (k : A → M S B) : M S B :=
  λ s, match m s with
       | (Returned a, s') => k a s'
       | (Threw e, s') => (Threw e, s')
       end.

(** [try { m } catch (e) { h e }] *)
Definition try_catch {S A} (m : M S A) (h : thrown → M S A) : M S A :=
  λ s, match m s with
       | (Returned a, s') => (Returned a, s')
       | (Threw e, s') => h e s'
       end.

(** [await p] for a library promise [p] *)
Definition await {S A} (p : rejection + A) : M S A :=
  match p with
  | inl r => throw (Native (rej_name r) (rej_message r))
  | inr a => ret a
  end.

(** Reading a property of a possibly undefined object. *)
Definition defined {S A} (prop : string) (x : option A) : M S A :=
  match x with
  | Some a => ret a
  | None => throw (undefined_read prop)
  end.

(** [for (const x of l) { body x }]: a throw leaves the loop. *)
Fixpoint for_of {S A} (l : list A) (body : A → M S unit) : M S unit :=
  match l with
  | [] => ret tt
  | x :: l' => bind (body x) (λ _, for_of l' body)
  end.

(** Reading and replacing the state. *)
Definition get {S} : M S S := λ s, (Returned s, s).
Definition modify {S} (f : S → S) : M S unit := λ s, (Returned tt, f s).

(** Run a computation on a component of a larger state. *)
Definition zoom {S T A} (get : T → S) (set : S → T → T) (m : M S A) : M T A :=
  λ t, match m (get t) with (o, s') => (o, set s' t) end.

End Js.

Export Js.

Declare Scope js_scope.
Delimit Scope js_scope with js.
Notation "x <- m ;; k" := (Js.bind m (λ x, k))
  (at level 100, m at next level, right associativity) : js_scope.
Notation "m ;;; k" := (Js.bind m (λ _, k))
  (at level 100, right associativity) : js_scope.
Local Open Scope js_scope.

(** ** The [messages] table ([supabase-schema.sql]) *)
Module Supabase.

(** [direction TEXT NOT NULL CHECK (direction IN ('sent', 'received'))] *)
Inductive direction : Type := sent | received.

(** A row of [messages]. The [id] column is generated by the storage and
    never read back by the bot service; it is left out. The foreign key
    on [account_id] refers to the [accounts] table, which is outside
    this model: every bot is created from a row of [accounts]. *)
Record row : Type := {
  account_id : string;
  discord_message_id : option string;
  discord_user_id : string;
  username : string;
  avatar : option string;
  dir : direction;
  content : string;
  timestamp : Z
}.

Abbreviation table := (list row).

Global Instance direction_eq_dec : EqDecision direction.
Proof. solve_decision. Defined.

Definition has_remote_id (m : string) (r : row) : bool :=
  bool_decide (discord_message_id r = Some m).

(** [discord_message_id TEXT UNIQUE]: a second row with the same
    non-null value is rejected. *)
Definition violates_unique (r : row) (t : table) : bool :=
  match discord_message_id r with
  | Some m => existsb (has_remote_id m) t
  | None => false
  end.

Definition unique_violation : thrown :=
  PostgrestError "23505"
    "duplicate key value violates unique constraint messages_discord_message_id_key".

(** [await supabase.from('messages').insert(r)]: the answer's [error]
    field. *)
Definition insert (r : row) : M table (option thrown) :=
  λ t, if violates_unique r t
       then (Returned (Some unique_violation), t)
       else (Returned None, t ++ [r]).

(** [await supabase.from('messages').select('id')
      .eq('discord_message_id', m).single()]: the answer's [data] field,
    null unless exactly one row matches. *)
Definition select_single (m : string) : M table (option row) :=
  λ t, match filter (λ r, has_remote_id m r = true) t with
       | [r] => (Returned (Some r), t)
       | _ => (Returned None, t)
       end.

(** Ascending order on the [timestamp] column. *)
Definition timestamp_le (r1 r2 : row) : Prop := (timestamp r1 ≤ timestamp r2)%Z.

Global Instance timestamp_le_dec : RelDecision timestamp_le.
Proof. intros r1 r2. unfold timestamp_le. apply _. Defined.

Definition in_conversation (a u : string) (r : row) : bool :=
  String.eqb (account_id r) a && String.eqb (discord_user_id r) u.

(** [select('*').eq('account_id', a).eq('discord_user_id', u)
      .order('timestamp', { ascending: true })], the query of the
    conversation view. *)
Definition loadMessages (a u : string) (t : table) : list row :=
  merge_sort timestamp_le (filter (λ r, in_conversation a u r = true) t).

(** The remote ids held by the table. *)
Definition remote_ids (t : table) : list string :=
  omap discord_message_id t.

(** The storage invariant kept by the [UNIQUE] constraint. *)
Definition unique_remote_ids (t : table) : Prop := NoDup (remote_ids t).

(** Rows stored under the dedupe key of the data model. *)
Definition rows_with_key (a m : string) (t : table) : list row :=
  filter (λ r, (String.eqb (account_id r) a && has_remote_id m r) = true) t.

(** Rows stored with a remote id, whatever the account. *)
Definition rows_with_remote_id (m : string) (t : table) : list row :=
  filter (λ r, has_remote_id m r = true) t.

End Supabase.

(** ** The messaging backend as seen through discord.js *)
Module Discord.

Record User : Type := {
  user_id : string;
  user_username : string;
  user_avatar : option string
}.

(** A channel; [recipient] is undefined for a channel that is not a
    direct conversation or whose peer is not resolved. *)
Record Channel : Type := {
  channel_id : string;
  channel_type : string;
  recipient : option User
}.

Record Message : Type := {
  message_id : string;
  author : User;
  channel : Channel;
  message_content : string;
  system : bool;
  createdAt : Z
}.

(** A logged-in [Client]: [client.user] is the resolved self identity,
    [client.channels.cache] the cached channels in insertion order. *)
Record Client : Type := {
  user : User;
  channels_cache : list Channel
}.

(** [client.channels.cache.get(id)] *)
Definition cache_get (c : Client) (id : string) : option Channel :=
  List.find (λ ch, String.eqb (channel_id ch) id) (channels_cache c).

Definition is_DM (ch : Channel) : bool := String.eqb (channel_type ch) "DM".

(** The body of a successful [POST /channels/:id/messages]. *)
Record ApiMessage : Type := {
  api_id : string;
  api_content : string;
  api_timestamp : option Z
}.

(** What [fetch] resolves to. [error_message] is the [message] field of
    the body when the body is JSON and has one; [message_data] is the
    parsed body, undefined when it does not parse. *)
Record Response : Type := {
  ok : bool;
  status : N;
  statusText : string;
  error_message : option string;
  message_data : option ApiMessage
}.

(** The answers of the collaborators. *)
Record Backend : Type := {
  (** [client.login(token)]: the connected client or the rejection *)
  login : string → rejection + Client;
  (** the direct conversation's messages, newest first, or the rejection
      of [channel.messages.fetch] *)
  history : Channel → rejection + list Message;
  (** [client.users.fetch(userId)] *)
  users_fetch : Client → string → rejection + User;
  (** [user.createDM()] *)
  createDM : Client → User → rejection + Channel;
  (** [fetch(url, { method: 'POST', ... })] for a token, a channel id and
      a content. The nonce and the fixed headers travel with the request
      and are not read again by the service. *)
  post_message : string → string → string → rejection + Response;
  (** [new Date()] at the time of a call *)
  now : Z
}.

(** [channel.messages.fetch({ limit })]: the [limit] most recent
    messages, newest first. *)
Definition messages_fetch (B : Backend) (ch : Channel) (limit : nat)
  : rejection + list Message :=
  match history B ch with
  | inl r => inl r
  | inr ms => inr (take limit ms)
  end.

Definition avatar_url (u : User) : option string :=
  match user_avatar u with
  | Some h =>
      if truthy h
      then Some ("https://cdn.discordapp.com/avatars/" +:+ user_id u +:+ "/" +:+ h +:+ ".png")
      else None
  | None => None
  end.

End Discord.

(** ** One session: class [DiscordCRMBot] *)
Module DiscordCRMBot.
Import Supabase Discord.

(** A started session. [client] is the logged-in client: the event
    handlers and the recorder only run once [client.user] is resolved. *)
Record t : Type := {
  token : string;
  accountId : string;
  client : Client
}.

Definition self_id (bot : t) : string := user_id (user (client bot)).

(** [async recordMessage(message)] *)
Definition recordMessage (bot : t) (message : Message) : M table unit :=
  let isFromBot := String.eqb (user_id (author message)) (self_id bot) in
  otherUser <- defined "id"
    (if isFromBot then recipient (channel message) else Some (author message)) ;;
  let messageData := {|
    account_id := accountId bot;
    discord_message_id := Some (message_id message);
    discord_user_id := user_id otherUser;
    username := user_username otherUser;
    avatar := avatar_url otherUser;
    dir := if isFromBot then sent else received;
    content := message_content message;
    timestamp := createdAt message
  |} in
  error <- insert messageData ;;
  match error with
  | Some e => throw e
  | None => ret tt
  end.

(** The handler of [client.on('messageCreate', ...)]. *)
Definition messageCreate (bot : t) (message : Message) : M table unit :=
  if negb (is_DM (channel message)) then ret tt
  else if String.eqb (user_id (author message)) (self_id bot) then ret tt
  else try_catch (recordMessage bot message) (λ _, ret tt).

(** [async recordSentMessage(messageData, channelId)] *)
Definition recordSentMessage (B : Backend) (bot : t)
    (messageData : ApiMessage) (channelId : string) : M table unit :=
  try_catch
    (match cache_get (client bot) channelId with
     | None => ret tt
     | Some channel =>
         if negb (is_DM channel) then ret tt
         else
           recipient <- defined "id" (recipient channel) ;;
           let dbMessageData := {|
             account_id := accountId bot;
             discord_message_id := Some (api_id messageData);
             discord_user_id := user_id recipient;
             username := user_username recipient;
             avatar := avatar_url recipient;
             dir := sent;
             content := api_content messageData;
             timestamp := match api_timestamp messageData with
                          | Some ts => ts
                          | None => now B
                          end
           |} in
           error <- insert dbMessageData ;;
           match error with
           | Some e => throw e
           | None => ret tt
           end
     end)
    (λ error, throw error).

(** The row built by [fetchExistingDMs] for a message of a channel. *)
Definition imported_row (bot : t) (recipient : User) (message : Message) : row :=
  let direction :=
    if String.eqb (user_id (author message)) (self_id bot) then sent else received in
  {| account_id := accountId bot;
     discord_message_id := Some (message_id message);
     discord_user_id := user_id recipient;
     username := user_username recipient;
     avatar := avatar_url recipient;
     dir := direction;
     content := message_content message;
     timestamp := createdAt message |}.

(** The body of the inner loop of [fetchExistingDMs]: one message of
    [channel]. A rejected insert is logged; the counter [totalMessages]
    only feeds the final log line. *)
Definition importMessage (bot : t) (channel : Channel) (message : Message)
  : M table unit :=
  if negb (truthy (message_content message)) || system message then ret tt
  else
    existingMessage <- select_single (message_id message) ;;
    match existingMessage with
    | Some _ => ret tt
    | None =>
        recipient <- defined "id" (recipient channel) ;;
        error <- insert (imported_row bot recipient message) ;;
        ret tt
    end.

(** The body of the outer loop of [fetchExistingDMs]: one channel. *)
Definition importChannel (B : Backend) (bot : t) (channel : Channel)
  : M table unit :=
  try_catch
    (messages <- await (messages_fetch B channel 50) ;;
     let sortedMessages := reverse messages in
     for_of sortedMessages (importMessage bot channel))
    (λ _, ret tt).

(** [async fetchExistingDMs()] *)
Definition fetchExistingDMs (B : Backend) (bot : t) : M table unit :=
  try_catch
    (let dmChannels := filter (λ ch, is_DM ch = true) (channels_cache (client bot)) in
     for_of dmChannels (importChannel B bot))
    (λ _, ret tt).

(** The value [sendMessage] resolves to. *)
Record SendResult : Type := {
  success : bool;
  message : string;
  messageId : string;
  result_content : string
}.

Definition api_error (response : Response) : thrown :=
  Error ("Discord API error " +:+ pretty (status response) +:+ ": "
         +:+ or_else (error_message response) (statusText response)).

(** [async sendMessage(channelId, content)] *)
Definition sendMessage (B : Backend) (bot : t) (channelId content : string)
  : M table SendResult :=
  try_catch
    (response <- await (post_message B (token bot) channelId content) ;;
     if negb (ok response) then throw (api_error response)
     else
       messageData <-
         match message_data response with
         | Some d => ret d
         | None => throw (Native "SyntaxError" "Unexpected end of JSON input")
         end ;;
       try_catch (recordSentMessage B bot messageData channelId) (λ _, ret tt) ;;;
       ret {| success := true;
              message := "Message sent successfully";
              messageId := api_id messageData;
              result_content := api_content messageData |})
    (λ error, throw error).

End DiscordCRMBot.

(** ** The registry: class [BotManager], the change feed and the endpoint *)
Module BotManager.
Import Supabase Discord.

(** The state of the service: the registry [this.bots], the sessions
    that are logged in at the backend and not destroyed (by account id),
    and the [messages] table. *)
Record World : Type := {
  bots : gmap string DiscordCRMBot.t;
  connections : list string;
  messages : table
}.

Definition set_bots (f : gmap string DiscordCRMBot.t → gmap string DiscordCRMBot.t)
    (w : World) : World :=
  {| bots := f (bots w); connections := connections w; messages := messages w |}.
Definition set_connections (f : list string → list string) (w : World) : World :=
  {| bots := bots w; connections := f (connections w); messages := messages w |}.
Definition set_messages (t : table) (w : World) : World :=
  {| bots := bots w; connections := connections w; messages := t |}.

Definition on_messages {A} (m : M table A) : M World A := zoom messages set_messages m.

(** [new DiscordCRMBot(token, accountId)] followed by [async start()]:
    [client.login], then the [ready] handler, which runs the history
    import and contains its errors. *)
Definition start (B : Backend) (token accountId : string) : M World DiscordCRMBot.t :=
  try_catch
    (client <- await (login B token) ;;
     let bot := {| DiscordCRMBot.token := token;
                   DiscordCRMBot.accountId := accountId;
                   DiscordCRMBot.client := client |} in
     modify (set_connections (λ l, accountId :: l)) ;;;
     try_catch (on_messages (DiscordCRMBot.fetchExistingDMs B bot)) (λ _, ret tt) ;;;
     ret bot)
    (λ error, throw error).

(** Removal of the first occurrence of [x]. *)
Fixpoint remove_one (x : string) (l : list string) : list string :=
  match l with
  | [] => []
  | y :: l' => if String.eqb x y then l' else y :: remove_one x l'
  end.

(** [async stop()]: [client.destroy()] *)
Definition stop (bot : DiscordCRMBot.t) : M World unit :=
  modify (set_connections (remove_one (DiscordCRMBot.accountId bot))).

(** [async addBot(accountId, token)] *)
Definition addBot (B : Backend) (accountId token : string) : M World unit :=
  w <- get ;;
  match bots w !! accountId with
  | Some _ => ret tt
  | None =>
      bot <- start B token accountId ;;
      modify (set_bots (λ m, <[accountId := bot]> m))
  end.

(** [async removeBot(accountId)] *)
Definition removeBot (accountId : string) : M World unit :=
  w <- get ;;
  match bots w !! accountId with
  | Some bot =>
      stop bot ;;;
      modify (set_bots (λ m, delete accountId m))
  | None => ret tt
  end.

Definition not_found (accountId : string) : thrown :=
  Error ("No bot found for account " +:+ accountId).

(** [async sendMessage(accountId, userId, content)] *)
Definition sendMessage (B : Backend) (accountId userId content : string)
  : M World DiscordCRMBot.SendResult :=
  w <- get ;;
  match bots w !! accountId with
  | None => throw (not_found accountId)
  | Some bot =>
      try_catch
        (user <- await (users_fetch B (DiscordCRMBot.client bot) userId) ;;
         dmChannel <- await (createDM B (DiscordCRMBot.client bot) user) ;;
         on_messages (DiscordCRMBot.sendMessage B bot (channel_id dmChannel) content))
        (λ error, throw error)
  end.

(** The handlers of [setupRealtimeSubscription]. *)
Definition on_account_insert (B : Backend) (id token : string) : M World unit :=
  try_catch (addBot B id token) (λ _, ret tt).

Definition on_account_delete (id : string) : M World unit := removeBot id.

(** The body of a [POST /send-message] request and the reply. *)
Record SendRequest : Type := {
  req_accountId : option string;
  req_userId : option string;
  req_content : option string
}.

Inductive ReplyBody : Type :=
| ErrorReply (error : string)
| ResultReply (result : DiscordCRMBot.SendResult).

Record Reply : Type := { reply_status : N; reply_body : ReplyBody }.

(** [!x] for a field of the request body *)
Definition missing (x : option string) : bool :=
  match x with
  | Some s => negb (truthy s)
  | None => true
  end.

(** [app.post('/send-message', ...)] *)
Definition post_send_message (B : Backend) (req : SendRequest) (w : World)
  : Reply * World :=
  match req_accountId req, req_userId req, req_content req with
  | Some accountId, Some userId, Some content =>
      if missing (req_accountId req) || missing (req_userId req) || missing (req_content req)
      then ({| reply_status := 400%N; reply_body := ErrorReply "Missing required fields" |}, w)
      else
        match sendMessage B accountId userId content w with
        | (Returned result, w') =>
            ({| reply_status := 200%N; reply_body := ResultReply result |}, w')
        | (Threw error, w') =>
            ({| reply_status := 500%N; reply_body := ErrorReply (message_of error) |}, w')
        end
  | _, _, _ =>
      ({| reply_status := 400%N; reply_body := ErrorReply "Missing required fields" |}, w)
  end.

End BotManager.

(** ** Vocabulary of the properties *)
Module Recorder.
Import Supabase Discord.

(** The two ways an event of the backend reaches the store: the live
    path ([recordMessage]) and the history importer (the loop body of
    [fetchExistingDMs], for a message of its own channel). *)
Inductive path : Type := Live | Backfill.

Definition persist (p : path) (bot : DiscordCRMBot.t) (message : Message)
  : M table unit :=
  match p with
  | Live => DiscordCRMBot.recordMessage bot message
  | Backfill => DiscordCRMBot.importMessage bot (channel message) message
  end.

Definition self_authored (bot : DiscordCRMBot.t) (message : Message) : bool :=
  String.eqb (user_id (author message)) (DiscordCRMBot.self_id bot).

(** The other party a path records: the live path takes the peer of the
    channel for a self-authored event and the author otherwise; the
    importer takes the peer of the channel it walks. *)
Definition peer_of (p : path) (bot : DiscordCRMBot.t) (message : Message)
  : option User :=
  match p with
  | Live =>
      if self_authored bot message then recipient (channel message)
      else Some (author message)
  | Backfill => recipient (channel message)
  end.

(** The events a path drops before looking at the store: the importer
    skips an empty content and a system message. *)
Definition filtered (p : path) (message : Message) : bool :=
  match p with
  | Live => false
  | Backfill => negb (truthy (message_content message)) || system message
  end.

(** The row a path hands to the store, if any. *)
Definition built_row (p : path) (bot : DiscordCRMBot.t) (message : Message)
  : option row :=
  if filtered p message then None
  else (λ u, DiscordCRMBot.imported_row bot u message) <$> peer_of p bot message.

(** The messages of a page that the importer does not skip on a table
    [t]: non-empty content, not a system message, remote id not stored. *)
Definition importable (t : table) (message : Message) : bool :=
  truthy (message_content message) && negb (system message)
  && negb (existsb (has_remote_id (message_id message)) t).

(** A page as the backend delivers it: newest first. *)
Definition newest_first (page : list Message) : Prop :=
  StronglySorted (λ m1 m2, (createdAt m2 ≤ createdAt m1)%Z) page.

Definition oldest_first (rows : list row) : Prop :=
  StronglySorted timestamp_le rows.

End Recorder.

Module Registry.
Import BotManager.

(** The number of live sessions of an account: logged in and not
    destroyed. *)
Definition live_sessions (a : string) (w : World) : nat :=
  length (filter (λ x, x = a) (connections w)).

(** The registry and the live sessions agree: a registered account has
    exactly one live session, filed under its own id, and an account that
    is not registered has none. *)
Definition registry_consistent (w : World) : Prop :=
  ∀ a, match bots w !! a with
       | Some bot => DiscordCRMBot.accountId bot = a ∧ live_sessions a w = 1%nat
       | None => live_sessions a w = 0%nat
       end.

End Registry.

(** ** Concrete sessions and events used by the examples *)
Module Sample.
Import Supabase Discord.

Definition alice : User :=
  {| user_id := "u1"; user_username := "alice"; user_avatar := None |}.
Definition bob : User :=
  {| user_id := "u2"; user_username := "bob"; user_avatar := Some "abc" |}.
Definition peer : User :=
  {| user_id := "p1"; user_username := "peer"; user_avatar := None |}.

(** The direct channel of [alice] with [peer], of [alice] with [bob] as
    each side sees it, and a group channel. *)
Definition dm_peer : Channel :=
  {| channel_id := "c1"; channel_type := "DM"; recipient := Some peer |}.
Definition dm_bob : Channel :=
  {| channel_id := "c2"; channel_type := "DM"; recipient := Some bob |}.
Definition dm_alice : Channel :=
  {| channel_id := "c2"; channel_type := "DM"; recipient := Some alice |}.
Definition group : Channel :=
  {| channel_id := "c3"; channel_type := "GROUP_DM"; recipient := None |}.

Definition bot_a1 : DiscordCRMBot.t :=
  {| DiscordCRMBot.token := "tok1"; DiscordCRMBot.accountId := "a1";
     DiscordCRMBot.client := {| user := alice; channels_cache := [dm_peer; dm_bob] |} |}.
Definition bot_a2 : DiscordCRMBot.t :=
  {| DiscordCRMBot.token := "tok2"; DiscordCRMBot.accountId := "a2";
     DiscordCRMBot.client := {| user := bob; channels_cache := [dm_alice] |} |}.
(** [peer] writes "hi" to [alice]. *)
Definition m1 : Message :=
  {| message_id := "m1"; author := peer; channel := dm_peer;
     message_content := "hi"; system := false; createdAt := 1000 |}.
(** [alice] answers. *)
Definition m2 : Message :=
  {| message_id := "m2"; author := alice; channel := dm_peer;
     message_content := "hello"; system := false; createdAt := 2000 |}.
Definition m3 : Message :=
  {| message_id := "m3"; author := peer; channel := dm_peer;
     message_content := "bye"; system := false; createdAt := 3000 |}.
(** [alice] writes to [bob]: the same backend message, as each of the
    two sessions sees it. *)
Definition m9_at_alice : Message :=
  {| message_id := "m9"; author := alice; channel := dm_bob;
     message_content := "ping"; system := false; createdAt := 9000 |}.
Definition m9_at_bob : Message :=
  {| message_id := "m9"; author := alice; channel := dm_alice;
     message_content := "ping"; system := false; createdAt := 9000 |}.

Definition no_such : rejection :=
  {| rej_name := "DiscordAPIError"; rej_message := "Unknown" |}.

Definition sent_m2 : ApiMessage :=
  {| api_id := "m2"; api_content := "hello"; api_timestamp := Some 2000%Z |}.

Definition response_ok : Response :=
  {| ok := true; status := 200%N; statusText := "OK";
     error_message := None; message_data := Some sent_m2 |}.
Definition response_429 : Response :=
  {| ok := false; status := 429%N; statusText := "Too Many Requests";
     error_message := Some "You are being rate limited."; message_data := None |}.
Definition response_500 : Response :=
  {| ok := false; status := 500%N; statusText := "Internal Server Error";
     error_message := None; message_data := None |}.

(** A backend that knows [peer], logs [tok1] in as [alice], delivers the
    history of [c1] newest first and answers a send with [answer]. *)
Definition backend (answer : Response) : Backend :=
  {| login := λ token,
       if String.eqb token "tok1" then inr (DiscordCRMBot.client bot_a1)
       else if String.eqb token "tok2" then inr (DiscordCRMBot.client bot_a2)
       else inl {| rej_name := "Error"; rej_message := "An invalid token was provided." |};
     history := λ ch,
       if String.eqb (channel_id ch) "c1" then inr [m3; m2; m1] else inr [];
     users_fetch := λ _ id,
       if String.eqb id "p1" then inr peer else inl no_such;
     createDM := λ _ u,
       if String.eqb (user_id u) "p1" then inr dm_peer else inl no_such;
     post_message := λ _ _ _, inr answer;
     now := 5000 |}.

Definition world0 : BotManager.World :=
  {| BotManager.bots := ∅; BotManager.connections := []; BotManager.messages := [] |}.

(** The service with the session of ["a1"] registered. *)
Definition world_a1 : BotManager.World :=
  {| BotManager.bots := {[ "a1" := bot_a1 ]};
     BotManager.connections := ["a1"];
     BotManager.messages := [] |}.

Definition request (a u c : string) : BotManager.SendRequest :=
  {| BotManager.req_accountId := Some a;
     BotManager.req_userId := Some u;
     BotManager.req_content := Some c |}.

End Sample.

(** ** The rest of the service: start-up, status and shutdown *)
Module Service.
Import Supabase Discord BotManager.

(** A row of [accounts] as [initializeFromDatabase] selects it. *)
Record Account : Type := {
  account_row_id : string;
  account_token : string;
  account_username : string
}.

(** [async initializeFromDatabase()]. [answer] is what
    [supabase.from('accounts').select('id, token, username')] resolves
    to: its [error] or its [data]. *)
Definition initializeFromDatabase (B : Backend) (answer : thrown + list Account)
  : M World unit :=
  try_catch
    (accounts <- match answer with
                 | inl error => throw error
                 | inr accounts => ret accounts
                 end ;;
     for_of accounts (λ account,
       try_catch
         (addBot B (account_row_id account) (account_token account))
         (λ _, ret tt)))
    (λ _, ret tt).

(** [getBotStatus()]. The keys are listed in the order of the registry
    model, not in the insertion order of the JavaScript [Map]; only their
    number and membership are meaningful. *)
Record BotStatus : Type := { totalBots : nat; activeBots : list string }.

Definition getBotStatus (w : World) : BotStatus :=
  {| totalBots := size (bots w); activeBots := (map_to_list (bots w)).*1 |}.

(** The handler of [process.on('SIGINT', ...)] up to [process.exit]:
    [removeBot] for every key of the registry. Each call deletes only the
    key it visits, so walking the keys held at the start visits the same
    keys as walking the live [Map]. *)
Definition SIGINT : M World unit :=
  w <- get ;;
  for_of (map_to_list (bots w)).*1 removeBot.

End Service.

(** ** The dashboard's route in front of the service ([POST /api/send-message]) *)
Module Proxy.
Import BotManager.

(** [response.ok] *)
Definition http_ok (status : N) : bool := (200 <=? status)%N && (status <? 300)%N.

(** [errorData.error], undefined when the body carries no [error]. *)
Definition error_field (body : ReplyBody) : option string :=
  match body with
  | ErrorReply e => Some e
  | ResultReply _ => None
  end.

(** [export async function POST(request)]. [body] is what
    [request.json()] resolves to; [service] is the bot service behind
    [fetch(botServiceUrl + '/send-message')], over a state [W]. *)
Definition POST {W : Type}
    (service : SendRequest → W → (rejection + Reply) * W)
    (body : rejection + SendRequest) (w : W) : Reply * W :=
  match body with
  | inl r => ({| reply_status := 500%N; reply_body := ErrorReply (rej_message r) |}, w)
  | inr req =>
      if missing (req_accountId req) || missing (req_userId req) || missing (req_content req)
      then ({| reply_status := 400%N;
               reply_body := ErrorReply "Missing required fields: accountId, userId, content" |}, w)
      else
        match service {| req_accountId := req_accountId req;
                         req_userId := req_userId req;
                         req_content := req_content req |} w with
        | (inl r, w') =>
            ({| reply_status := 500%N; reply_body := ErrorReply (rej_message r) |}, w')
        | (inr response, w') =>
            if negb (http_ok (reply_status response))
            then ({| reply_status := reply_status response;
                     reply_body :=
                       ErrorReply
                         (or_else (error_field (reply_body response))
                            ("Bot service error: " +:+ pretty (reply_status response))) |}, w')
            else ({| reply_status := 200%N; reply_body := reply_body response |}, w')
        end
  end.

(** The bot service of this repository as the [service] of the route. *)
Definition bot_service (B : Discord.Backend) (req : SendRequest) (w : World)
  : (rejection + Reply) * World :=
  (inr (post_send_message B req w).1, (post_send_message B req w).2).

End Proxy.

(** ** The dashboard's readers of [messages] *)
Module Dashboard.
Import Supabase.

(** [interface Conversation] of the inbox. *)
Record Conversation : Type := {
  conv_user_id : string;
  conv_username : string;
  conv_avatar : option string;
  last_message : string;
  last_message_time : Z;
  unread_count : nat;
  conv_direction : direction
}.

(** The entry [loadConversations] files for the first message it meets
    of a peer. *)
Definition conversation_of (message : row) : Conversation :=
  {| conv_user_id := discord_user_id message;
     conv_username := username message;
     conv_avatar := avatar message;
     last_message := content message;
     last_message_time := timestamp message;
     unread_count := 0;
     conv_direction := dir message |}.

(** [conversationMap.has(userId)], the [Map] being kept in insertion
    order. *)
Definition map_has (userId : string) (m : list (string * Conversation)) : bool :=
  existsb (λ kv, String.eqb kv.1 userId) m.

(** The body of [data.forEach]. *)
Definition file_message (m : list (string * Conversation)) (message : row)
  : list (string * Conversation) :=
  if map_has (discord_user_id message) m then m
  else m ++ [(discord_user_id message, conversation_of message)].

(** [Array.prototype.sort] with the comparator
    [(a, b) => time(b) - time(a)]: a stable sort, newest first. *)
Fixpoint sort_insert (x : Conversation) (l : list Conversation) : list Conversation :=
  match l with
  | [] => [x]
  | y :: l' =>
      if (last_message_time y <=? last_message_time x)%Z then x :: y :: l'
      else y :: sort_insert x l'
  end.

Definition sort_newest_first (l : list Conversation) : list Conversation :=
  foldr sort_insert [] l.

(** [loadConversations] of the inbox, from the [data] of its query
    ([.eq('account_id', id).order('timestamp', { ascending: false })]) to
    the list it hands to [setConversations]. *)
Definition loadConversations (data : list row) : list Conversation :=
  sort_newest_first (foldl file_message [] data).*2.

(** A message of the conversation view: a row with the [id] of the
    storage, or the provisional entry shown after a send. *)
Record ViewMessage : Type := { view_id : string; view_row : row }.

(** [prev.some(msg => msg.id === id)] *)
Definition shown (id : string) (prev : list ViewMessage) : bool :=
  existsb (λ msg, String.eqb (view_id msg) id) prev.

(** The handler of the conversation view's subscription to inserts into
    [messages], as the update of the displayed list. *)
Definition on_insert (userId : string) (prev : list ViewMessage)
    (newMessage : ViewMessage) : list ViewMessage :=
  if String.eqb (discord_user_id (view_row newMessage)) userId
  then if shown (view_id newMessage) prev then prev else prev ++ [newMessage]
  else prev.

(** The provisional entry built after a successful send: [messageId] is
    the [messageId] of the answer, [content] the trimmed input, [now] is
    [Date.now()] and [created] the later [new Date()]. *)
Definition optimisticMessage (accountId userId : string)
    (userInfo : option (string * option string))
    (messageId : option string) (content : string) (now created : Z) : ViewMessage :=
  {| view_id := or_else messageId ("temp-" +:+ pretty now);
     view_row :=
       {| account_id := accountId;
          discord_message_id := None;
          discord_user_id := userId;
          username := or_else (fst <$> userInfo) "You";
          avatar := match userInfo with
                    | Some (_, Some a) => if truthy a then Some a else None
                    | _ => None
                    end;
          dir := sent;
          content := content;
          timestamp := created |} |}.

(** The update of the displayed list with the provisional entry. *)
Definition show_optimistic (prev : list ViewMessage) (m : ViewMessage)
  : list ViewMessage :=
  if shown (view_id m) prev then prev else prev ++ [m].

End Dashboard.

(** ** Vocabulary of the further properties *)
Module Coverage.
Import Supabase Discord.

(** A message the importer's loop body passes over on a table: it is
    filtered out, or its remote id is stored. *)
Definition passed_over (t : table) (message : Message) : Prop :=
  (negb (truthy (message_content message)) || system message) = true
  ∨ message_id message ∈ remote_ids t.

(** A channel that has nothing left to import on a table: its fetch is
    rejected, its peer is not resolved, or every message of its page is
    passed over. *)
Definition nothing_to_import (B : Backend) (ch : Channel) (t : table) : Prop :=
  match history B ch with
  | inl _ => True
  | inr hist =>
      recipient ch = None
      ∨ ∀ message, message ∈ reverse (take 50 hist) → passed_over t message
  end.

(** The session with another channel cache. *)
Definition with_cache (bot : DiscordCRMBot.t) (cs : list Channel) : DiscordCRMBot.t :=
  {| DiscordCRMBot.token := DiscordCRMBot.token bot;
     DiscordCRMBot.accountId := DiscordCRMBot.accountId bot;
     DiscordCRMBot.client :=
       {| user := user (DiscordCRMBot.client bot); channels_cache := cs |} |}.

(** What every row written by the importer satisfies. *)
Definition imported_by (bot : DiscordCRMBot.t) (r : row) : Prop :=
  account_id r = DiscordCRMBot.accountId bot
  ∧ truthy (content r) = true
  ∧ is_Some (discord_message_id r).

(** The row the live handler writes for an event. *)
Definition live_row (bot : DiscordCRMBot.t) (message : Message) : row :=
  {| account_id := DiscordCRMBot.accountId bot;
     discord_message_id := Some (message_id message);
     discord_user_id := user_id (author message);
     username := user_username (author message);
     avatar := avatar_url (author message);
     dir := received;
     content := message_content message;
     timestamp := createdAt message |}.

(** Newest first, for the rows of the inbox query and for its result. *)
Definition rows_newest_first (data : list row) : Prop :=
  StronglySorted (λ r1 r2, (timestamp r2 ≤ timestamp r1)%Z) data.

Definition conversations_newest_first (l : list Dashboard.Conversation) : Prop :=
  StronglySorted
    (λ c1 c2, (Dashboard.last_message_time c2 ≤ Dashboard.last_message_time c1)%Z) l.

(** The rows of [data] that open a conversation: for each peer not in
    [seen], the first row of that peer. *)
Fixpoint first_per_peer (seen : list string) (data : list row) : list row :=
  match data with
  | [] => []
  | r :: data' =>
      if bool_decide (discord_user_id r ∈ seen) then first_per_peer seen data'
      else r :: first_per_peer (discord_user_id r :: seen) data'
  end.

End Coverage.

(** ** Handlers suspended at an [await] *)
Module Overlap.
Import Supabase Discord BotManager.

(** [addBot] up to [await bot.start()]: the test [this.bots.has(accountId)],
    true when the call returns at once. Nothing is written before the
    login resolves. *)
Definition addBot_returns_early (accountId : string) (w : World) : bool :=
  bool_decide (is_Some (bots w !! accountId)).

(** [addBot] from the point where the test has been passed: the login
    resolves, [start] returns, and the session is registered with
    [this.bots.set]. *)
Definition addBot_from_start (B : Backend) (accountId token : string) : M World unit :=
  bot <- start B token accountId ;;
  modify (set_bots (λ m, <[accountId := bot]> m)).

(** Two calls of [addBot] for one account that overlap: both run their
    test on the state [w], then the first and the second resume. *)
Definition addBot_overlapping (B : Backend) (accountId token1 token2 : string)
    (w : World) : (outcome unit * outcome unit) * World :=
  let early1 := addBot_returns_early accountId w in
  let early2 := addBot_returns_early accountId w in
  let r1 := if early1 then (Returned tt, w) else addBot_from_start B accountId token1 w in
  let r2 := if early2 then (Returned tt, r1.2)
            else addBot_from_start B accountId token2 r1.2 in
  ((r1.1, r2.1), r2.2).

(** Every session is registered under the account id it was built with.
    Unlike the agreement with the live sessions, this survives overlapping
    calls. *)
Definition registered_under_own_id (w : World) : Prop :=
  ∀ a bot, bots w !! a = Some bot → DiscordCRMBot.accountId bot = a.

(** [DiscordCRMBot.sendMessage] from the point where [await fetch(...)]
    has resolved to [response]. *)
Definition sendMessage_after_fetch (B : Backend) (bot : DiscordCRMBot.t)
    (channelId : string) (response : Response) : M table DiscordCRMBot.SendResult :=
  try_catch
    (if negb (ok response) then throw (DiscordCRMBot.api_error response)
     else
       messageData <-
         match message_data response with
         | Some d => ret d
         | None => throw (Native "SyntaxError" "Unexpected end of JSON input")
         end ;;
       try_catch (DiscordCRMBot.recordSentMessage B bot messageData channelId)
         (λ _, ret tt) ;;;
       ret {| DiscordCRMBot.success := true;
              DiscordCRMBot.message := "Message sent successfully";
              DiscordCRMBot.messageId := api_id messageData;
              DiscordCRMBot.result_content := api_content messageData |})
    (λ error, throw error).

(** A [BotManager.sendMessage] waiting for nothing more: the session, the
    channel [createDM] resolved and the answer of [fetch]. *)
Record suspended_send : Type := {
  send_bot : DiscordCRMBot.t;
  send_channel : Channel;
  send_response : Response
}.

(** [BotManager.sendMessage] up to the resolution of [await fetch(...)]:
    it reads the registry and asks the backend; nothing is written. *)
Definition sendMessage_until_fetch (B : Backend) (accountId userId content : string)
    (w : World) : outcome suspended_send :=
  match bots w !! accountId with
  | None => Threw (not_found accountId)
  | Some bot =>
      match users_fetch B (DiscordCRMBot.client bot) userId with
      | inl r => Threw (Native (rej_name r) (rej_message r))
      | inr user =>
          match createDM B (DiscordCRMBot.client bot) user with
          | inl r => Threw (Native (rej_name r) (rej_message r))
          | inr dmChannel =>
              match post_message B (DiscordCRMBot.token bot) (channel_id dmChannel) content with
              | inl r => Threw (Native (rej_name r) (rej_message r))
              | inr response =>
                  Returned {| send_bot := bot;
                              send_channel := dmChannel;
                              send_response := response |}
              end
          end
      end
  end.

(** [BotManager.sendMessage] from that point on. *)
Definition sendMessage_from_fetch (B : Backend) (s : suspended_send)
  : M World DiscordCRMBot.SendResult :=
  try_catch
    (on_messages
       (sendMessage_after_fetch B (send_bot s) (channel_id (send_channel s))
          (send_response s)))
    (λ error, throw error).

End Overlap.

(** ** Two sessions of the service that write to each other *)
Module Sample_pair.
Import Supabase Discord Sample.

(** The answer to [alice]'s "ping" to [bob]: the backend names it ["m9"]. *)
Definition sent_m9 : ApiMessage :=
  {| api_id := "m9"; api_content := "ping"; api_timestamp := Some 9000%Z |}.

Definition response_m9 : Response :=
  {| ok := true; status := 200%N; statusText := "OK";
     error_message := None; message_data := Some sent_m9 |}.

(** A backend that knows [bob], resolves the direct channel of [alice]
    with [bob] and answers the send with ["m9"]. *)
Definition backend_pair : Backend :=
  {| login := λ token,
       if String.eqb token "tok1" then inr (DiscordCRMBot.client bot_a1)
       else if String.eqb token "tok2" then inr (DiscordCRMBot.client bot_a2)
       else inl {| rej_name := "Error"; rej_message := "An invalid token was provided." |};
     history := λ _, inr [];
     users_fetch := λ _ id,
       if String.eqb id "u2" then inr bob else inl no_such;
     createDM := λ _ u,
       if String.eqb (user_id u) "u2" then inr dm_bob else inl no_such;
     post_message := λ _ _ _, inr response_m9;
     now := 9500%Z |}.

(** The service with the sessions of ["a1"] ([alice]) and ["a2"] ([bob])
    registered and nothing stored. *)
Definition world_pair : BotManager.World :=
  {| BotManager.bots := <[ "a2" := bot_a2 ]> {[ "a1" := bot_a1 ]};
     BotManager.connections := ["a2"; "a1"];
     BotManager.messages := [] |}.

End Sample_pair.

(** * Properties *)

Import Supabase Discord Recorder Registry.
Import Coverage Overlap.

(** ** The store keeps remote ids unique *)
Section Store.
Implicit Types (t : table) (r : row) (m : string).

Lemma has_remote_id_true m r :
  has_remote_id m r = true ↔ discord_message_id r = Some m.
Proof. unfold has_remote_id. apply bool_decide_eq_true. Qed.

Lemma stored_iff_remote_id m t :
  existsb (has_remote_id m) t = true ↔ m ∈ remote_ids t.
Proof.
  unfold remote_ids. rewrite existsb_exists, list_elem_of_omap.
  split; intros (r & Hr & Hm); exists r.
  - split; [by apply list_elem_of_In | by apply has_remote_id_true].
  - split; [by apply list_elem_of_In | by apply has_remote_id_true].
Qed.

Lemma not_stored_iff m t :
  existsb (has_remote_id m) t = false ↔ m ∉ remote_ids t.
Proof.
  rewrite <- stored_iff_remote_id. destruct (existsb _ t); naive_solver.
Qed.

Lemma remote_ids_snoc t r :
  remote_ids (t ++ [r]) = remote_ids t ++ option_list (discord_message_id r).
Proof.
  unfold remote_ids. rewrite omap_app. simpl.
  by destruct (discord_message_id r).
Qed.

Lemma rows_with_remote_id_empty m t :
  rows_with_remote_id m t = [] ↔ m ∉ remote_ids t.
Proof.
  unfold rows_with_remote_id. rewrite <- not_stored_iff.
  induction t as [|r t IH]; [done|].
  rewrite filter_cons. cbn [existsb]. destruct (has_remote_id m r) eqn:E.
  - rewrite decide_True by done. split; intros ?; discriminate.
  - rewrite decide_False by (by intros ?). done.
Qed.

Lemma unique_at_most_one m t :
  unique_remote_ids t → length (rows_with_remote_id m t) ≤ 1.
Proof.
  unfold unique_remote_ids, remote_ids.
  induction t as [|r t IH]; intros Hnd; [simpl; lia|].
  cbn [omap list_omap] in Hnd.
  unfold rows_with_remote_id in *. rewrite filter_cons.
  destruct (decide (has_remote_id m r = true)) as [E|E].
  - apply has_remote_id_true in E. rewrite E in Hnd. simpl in Hnd.
    apply NoDup_cons in Hnd as [Hnot Hnd].
    fold (remote_ids t) in Hnot. apply rows_with_remote_id_empty in Hnot.
    unfold rows_with_remote_id in Hnot. rewrite Hnot. simpl. lia.
  - apply IH. destruct (discord_message_id r); simpl in Hnd; [|done].
    by apply NoDup_cons in Hnd as [_ ?].
Qed.

Lemma rows_with_key_sublist a m t :
  rows_with_key a m t = filter (λ r, String.eqb (account_id r) a = true)
                               (rows_with_remote_id m t).
Proof.
  unfold rows_with_key, rows_with_remote_id.
  induction t as [|r t IH]; [done|].
  rewrite (filter_cons (λ r, has_remote_id m r = true)).
  rewrite (filter_cons (λ r, (String.eqb (account_id r) a && has_remote_id m r) = true)).
  destruct (decide (has_remote_id m r = true)) as [E1|E1].
  - rewrite filter_cons.
    destruct (decide (String.eqb (account_id r) a = true)) as [E2|E2].
    + rewrite decide_True by (by rewrite E1, E2). by f_equal.
    + rewrite decide_False; [done|]. intros [? _]%andb_true_iff. done.
  - rewrite decide_False; [done|]. intros [_ ?]%andb_true_iff. done.
Qed.

Lemma key_at_most_remote a m t :
  length (rows_with_key a m t) ≤ length (rows_with_remote_id m t).
Proof.
  rewrite rows_with_key_sublist.
  pose proof (length_filter (λ r, String.eqb (account_id r) a = true)
                (rows_with_remote_id m t)). lia.
Qed.

(** What [insert] does, in one equation. *)
Lemma insert_run r t :
  insert r t =
    if violates_unique r t then (Returned (Some unique_violation), t)
    else (Returned None, t ++ [r]).
Proof. reflexivity. Qed.

Lemma insert_keeps_unique r t :
  unique_remote_ids t → unique_remote_ids (insert r t).2.
Proof.
  intros Hu. rewrite insert_run. unfold violates_unique.
  destruct (discord_message_id r) as [m|] eqn:Em.
  - destruct (existsb (has_remote_id m) t) eqn:E; simpl; [done|].
    apply not_stored_iff in E.
    unfold unique_remote_ids. rewrite remote_ids_snoc, Em. simpl.
    apply NoDup_app. split; [done|]. split; [|apply NoDup_singleton].
    intros x Hx Hx'. apply list_elem_of_singleton in Hx'. by subst.
  - simpl. unfold unique_remote_ids. rewrite remote_ids_snoc, Em. simpl.
    by rewrite app_nil_r.
Qed.

(** With unique remote ids, [single()] finds a stored id. *)
Lemma select_single_run m t :
  unique_remote_ids t →
  select_single m t =
    (Returned (if existsb (has_remote_id m) t
               then head (rows_with_remote_id m t) else None), t).
Proof.
  intros Hu. unfold select_single.
  pose proof (unique_at_most_one m t Hu) as Hlen.
  fold (rows_with_remote_id m t).
  destruct (existsb (has_remote_id m) t) eqn:E.
  - apply stored_iff_remote_id in E.
    destruct (rows_with_remote_id m t) as [|r [|r' l]] eqn:Er; simpl in *.
    + apply rows_with_remote_id_empty in Er. done.
    + done.
    + lia.
  - apply not_stored_iff, rows_with_remote_id_empty in E. by rewrite E.
Qed.

Lemma select_single_found m t :
  unique_remote_ids t → m ∈ remote_ids t →
  ∃ r, select_single m t = (Returned (Some r), t).
Proof.
  intros Hu Hm. rewrite select_single_run by done.
  pose proof Hm as Hm'. apply stored_iff_remote_id in Hm'. rewrite Hm'.
  destruct (rows_with_remote_id m t) as [|r l] eqn:Er.
  - apply rows_with_remote_id_empty in Er. done.
  - by exists r.
Qed.

Lemma select_single_absent m t :
  m ∉ remote_ids t → select_single m t = (Returned None, t).
Proof.
  intros Hm. unfold select_single. fold (rows_with_remote_id m t).
  apply rows_with_remote_id_empty in Hm. by rewrite Hm.
Qed.

End Store.

(** ** The recorder: live path and importer loop body *)
Section Persist.
Variable bot : DiscordCRMBot.t.
Implicit Types (t : table) (message : Message) (p : path).

Lemma recordMessage_run message t :
  DiscordCRMBot.recordMessage bot message t =
    match peer_of Live bot message with
    | None => (Threw (undefined_read "id"), t)
    | Some u =>
        if existsb (has_remote_id (message_id message)) t
        then (Threw unique_violation, t)
        else (Returned tt, t ++ [DiscordCRMBot.imported_row bot u message])
    end.
Proof.
  unfold DiscordCRMBot.recordMessage, peer_of, self_authored, bind, defined.
  destruct (String.eqb _ _) eqn:E.
  - destruct (recipient (channel message)) as [u|]; [|done].
    cbn [ret]. rewrite insert_run. unfold violates_unique. cbn [discord_message_id].
    destruct (existsb _ t); [done|].
    unfold DiscordCRMBot.imported_row. by rewrite E.
  - cbn [ret]. rewrite insert_run. unfold violates_unique. cbn [discord_message_id].
    destruct (existsb _ t); [done|].
    unfold DiscordCRMBot.imported_row. by rewrite E.
Qed.

Lemma importMessage_run ch message t :
  unique_remote_ids t →
  DiscordCRMBot.importMessage bot ch message t =
    if negb (truthy (message_content message)) || system message
    then (Returned tt, t)
    else if existsb (has_remote_id (message_id message)) t
    then (Returned tt, t)
    else match recipient ch with
         | None => (Threw (undefined_read "id"), t)
         | Some u => (Returned tt, t ++ [DiscordCRMBot.imported_row bot u message])
         end.
Proof.
  intros Hu. unfold DiscordCRMBot.importMessage.
  destruct (negb _ || _); [done|].
  unfold bind. rewrite select_single_run by done.
  destruct (existsb (has_remote_id (message_id message)) t) eqn:E.
  - apply stored_iff_remote_id in E.
    destruct (rows_with_remote_id (message_id message) t) eqn:Er; [|done].
    by apply rows_with_remote_id_empty in Er.
  - unfold defined. destruct (recipient ch) as [u|]; [|done].
    cbn [ret]. rewrite insert_run. unfold violates_unique.
    cbn [DiscordCRMBot.imported_row discord_message_id]. by rewrite E.
Qed.

(** Without any assumption on the table, the importer's loop body
    leaves it as it is or appends the row it built. *)
Lemma importMessage_appends ch message t :
  (DiscordCRMBot.importMessage bot ch message t).2 = t
  ∨ ∃ u, recipient ch = Some u
       ∧ (DiscordCRMBot.importMessage bot ch message t).2
         = t ++ [DiscordCRMBot.imported_row bot u message].
Proof.
  unfold DiscordCRMBot.importMessage.
  destruct (negb _ || _); [by left|].
  unfold bind, select_single.
  destruct (filter _ t) as [|r [|r' l]]; [| by left |].
  - unfold defined. destruct (recipient ch) as [u|]; [|by left].
    cbn [ret]. rewrite insert_run.
    destruct (violates_unique _ t); [by left|]. right. by exists u.
  - unfold defined. destruct (recipient ch) as [u|]; [|by left].
    cbn [ret]. rewrite insert_run.
    destruct (violates_unique _ t); [by left|]. right. by exists u.
Qed.

(** The table after a persist, by either path. *)
Lemma persist_table p message t :
  unique_remote_ids t →
  (persist p bot message t).2 =
    if existsb (has_remote_id (message_id message)) t then t
    else match built_row p bot message with
         | Some r => t ++ [r]
         | None => t
         end.
Proof.
  intros Hu. destruct p; unfold persist, built_row, filtered.
  - rewrite recordMessage_run.
    destruct (peer_of Live bot message) as [u|];
      by destruct (existsb _ t).
  - rewrite importMessage_run by done. cbn [peer_of].
    destruct (negb _ || _); [by destruct (existsb _ t)|].
    destruct (existsb _ t); [done|].
    by destruct (recipient (channel message)).
Qed.

Lemma persist_appends p message t :
  (persist p bot message t).2 = t
  ∨ ∃ u, (persist p bot message t).2
         = t ++ [DiscordCRMBot.imported_row bot u message].
Proof.
  destruct p; unfold persist.
  - rewrite recordMessage_run.
    destruct (peer_of Live bot message) as [u|]; [|by left].
    destruct (existsb _ t); [by left|]. right. by exists u.
  - destruct (importMessage_appends (channel message) message t) as [?|(u & _ & ?)];
      [by left|]. right. by exists u.
Qed.

Lemma built_row_fields p message r :
  built_row p bot message = Some r →
  account_id r = DiscordCRMBot.accountId bot
  ∧ discord_message_id r = Some (message_id message).
Proof.
  unfold built_row. destruct (filtered p message); [done|].
  destruct (peer_of p bot message) as [u|]; [|done].
  intros [= <-]. done.
Qed.

Lemma persist_keeps_unique p message t :
  unique_remote_ids t → unique_remote_ids (persist p bot message t).2.
Proof.
  intros Hu. rewrite persist_table by done.
  destruct (existsb _ t) eqn:E; [done|].
  destruct (built_row p bot message) as [r|] eqn:Er; [|done].
  apply built_row_fields in Er as [_ Hid].
  pose proof (insert_keeps_unique r t Hu) as H.
  rewrite insert_run in H. unfold violates_unique in H.
  rewrite Hid, E in H. done.
Qed.

Lemma persist_stored_noop p message t :
  unique_remote_ids t → message_id message ∈ remote_ids t →
  (persist p bot message t).2 = t.
Proof.
  intros Hu Hm. rewrite persist_table by done.
  apply stored_iff_remote_id in Hm. by rewrite Hm.
Qed.

Lemma rows_with_key_snoc a m t r :
  m ∉ remote_ids t → account_id r = a → discord_message_id r = Some m →
  rows_with_key a m (t ++ [r]) = [r].
Proof.
  intros Hm Ha Hr. unfold rows_with_key. rewrite filter_app.
  assert (rows_with_key a m t = []) as Hnil.
  { pose proof (key_at_most_remote a m t) as Hle.
    apply rows_with_remote_id_empty in Hm. rewrite Hm in Hle.
    destruct (rows_with_key a m t); [done|simpl in Hle; lia]. }
  unfold rows_with_key in Hnil. rewrite Hnil.
  rewrite filter_cons, decide_True; [done|].
  apply andb_true_iff. split.
  - rewrite Ha. apply String.eqb_refl.
  - by apply has_remote_id_true.
Qed.

(** The direction of a row appended by either path. *)
Lemma appended_row_direction p message t r :
  (persist p bot message t).2 = t ++ [r] →
  dir r = if self_authored bot message then sent else received.
Proof.
  intros Hr.
  destruct (persist_appends p message t) as [H|[u H]]; rewrite H in Hr.
  - apply (f_equal length) in Hr. rewrite length_app in Hr. simpl in Hr. lia.
  - apply app_inv_head in Hr. injection Hr as <-. done.
Qed.

End Persist.

(** ** Dedupe, direction and the live handler *)
Section Claims_recorder.
Import Sample.

Lemma snoc_not_self {A} (l : list A) (x : A) : l ≠ l ++ [x].
Proof.
  intros H. apply (f_equal length) in H. rewrite length_app in H.
  simpl in H. lia.
Qed.

(** C1 (as the code has it). The dedupe key of the store is the remote
    message id alone, unique across accounts. Persisting one event twice,
    through any combination of [recordMessage] and the importer's loop
    body, keeps remote ids unique (hence at most one row per account and
    remote id) and leaves at most one row with the event's remote id; once
    a row with that id is stored the second persist writes nothing; and when the id was not stored before and at
    least one of the two paths builds a row for the event, exactly one
    row is stored under (account_id, remote_message_id). *)
Theorem dedupe_by_remote_id bot message p1 p2 t :
  unique_remote_ids t →
  let t1 := (persist p1 bot message t).2 in
  let t2 := (persist p2 bot message t1).2 in
  unique_remote_ids t2
  ∧ (∀ a m, length (rows_with_key a m t2) ≤ 1)%nat
  ∧ (length (rows_with_remote_id (message_id message) t2) ≤ 1)%nat
  ∧ (message_id message ∈ remote_ids t1 → t2 = t1)
  ∧ (message_id message ∉ remote_ids t →
     is_Some (built_row p1 bot message) ∨ is_Some (built_row p2 bot message) →
     length (rows_with_key (DiscordCRMBot.accountId bot) (message_id message) t2)
     = 1%nat).
Proof.
  intros Hu t1 t2.
  assert (unique_remote_ids t1) as Hu1 by by apply persist_keeps_unique.
  assert (unique_remote_ids t2) as Hu2 by by apply persist_keeps_unique.
  split; [done|].
  split.
  { intros a m. pose proof (key_at_most_remote a m t2).
    pose proof (unique_at_most_one m t2 Hu2). lia. }
  split; [by apply unique_at_most_one|].
  split; [intros Hin; by apply persist_stored_noop|].
  intros Hnew Hbuilt.
  pose proof Hnew as Hnew'. apply not_stored_iff in Hnew'.
  assert (t1 = match built_row p1 bot message with
               | Some r => t ++ [r] | None => t end) as Ht1.
  { subst t1. rewrite persist_table by done. by rewrite Hnew'. }
  destruct (built_row p1 bot message) as [r1|] eqn:E1.
  - apply built_row_fields in E1 as [Ha Hid].
    assert (message_id message ∈ remote_ids t1) as Hin.
    { rewrite Ht1, remote_ids_snoc, Hid. simpl. apply elem_of_app. right. apply list_elem_of_here. }
    subst t2. rewrite persist_stored_noop by done. rewrite Ht1.
    by rewrite (rows_with_key_snoc _ _ t r1).
  - destruct Hbuilt as [[r' Hr']|[r2 E2]]; [discriminate|].
    subst t2. rewrite persist_table by done. rewrite Ht1, Hnew', E2.
    apply built_row_fields in E2 as [Ha Hid].
    by rewrite (rows_with_key_snoc _ _ t r2).
Qed.

Lemma dedupe_by_remote_id_witness :
  length (rows_with_key "a1" "m1"
            (persist Backfill bot_a1 m1 (persist Live bot_a1 m1 []).2).2) = 1%nat.
Proof.
  destruct (dedupe_by_remote_id bot_a1 m1 Live Backfill [] NoDup_nil_2)
    as (_ & _ & _ & _ & H).
  apply H.
  - cbn. apply not_elem_of_nil.
  - left. eexists. reflexivity.
Defined.

(** C1 as stated fails on the key (account_id, remote_message_id): two
    sessions of the service see the same backend message ["m9"], sent by
    one account to the other. Once the sender's session has stored it,
    the receiver's session persists it twice and no row is stored under
    its own key. *)
Lemma dedupe_per_account_counterexample :
  let t := (persist Backfill bot_a1 m9_at_alice []).2 in
  let t2 := (persist Live bot_a2 m9_at_bob (persist Live bot_a2 m9_at_bob t).2).2 in
  unique_remote_ids t
  ∧ message_id m9_at_bob = "m9" ∧ DiscordCRMBot.accountId bot_a2 = "a2"
  ∧ length (rows_with_key "a2" "m9" t2) ≠ 1%nat.
Proof.
  cbn. split; [|done].
  apply NoDup_cons. split; [apply not_elem_of_nil | apply NoDup_nil_2].
Qed.

(** C2 (as the code has it). When the store rejects the insert of
    [recordMessage] for uniqueness, [recordMessage] raises the store's
    error to its caller and writes nothing; its caller in the service,
    the [messageCreate] handler, catches it and returns normally. *)
Theorem rejected_insert_is_raised bot message t :
  is_Some (peer_of Live bot message) →
  message_id message ∈ remote_ids t →
  DiscordCRMBot.recordMessage bot message t = (Threw unique_violation, t)
  ∧ DiscordCRMBot.messageCreate bot message t = (Returned tt, t).
Proof.
  intros [u Hu] Hin. apply stored_iff_remote_id in Hin.
  assert (DiscordCRMBot.recordMessage bot message t = (Threw unique_violation, t)) as Hrec.
  { rewrite recordMessage_run, Hu. by rewrite Hin. }
  split; [done|].
  unfold DiscordCRMBot.messageCreate.
  destruct (negb _); [done|]. destruct (String.eqb _ _); [done|].
  unfold try_catch. by rewrite Hrec.
Qed.

Lemma rejected_insert_is_raised_witness :
  let t := (DiscordCRMBot.recordMessage bot_a1 m1 []).2 in
  DiscordCRMBot.recordMessage bot_a1 m1 t = (Threw unique_violation, t)
  ∧ DiscordCRMBot.messageCreate bot_a1 m1 t = (Returned tt, t).
Proof.
  apply (rejected_insert_is_raised bot_a1 m1).
  - eexists. reflexivity.
  - cbn. apply list_elem_of_here.
Defined.

(** C2 as stated fails: on a table that already holds ["m1"], the
    importer's explicit check returns normally, while [recordMessage],
    whose insert is rejected, throws the store's error. *)
Lemma rejected_insert_counterexample :
  let t := (DiscordCRMBot.recordMessage bot_a1 m1 []).2 in
  (DiscordCRMBot.importMessage bot_a1 dm_peer m1 t).1 = Returned tt
  ∧ (DiscordCRMBot.recordMessage bot_a1 m1 t).1 = Threw unique_violation
  ∧ (DiscordCRMBot.recordMessage bot_a1 m1 t).1 ≠ Returned tt.
Proof. cbn. done. Qed.

(** C4. Every row stored by a persist, on the live path or by the
    importer, has direction [sent] exactly when the author's id is the
    session's own id, and [received] otherwise. *)
Theorem direction_rule p bot message t r :
  (persist p bot message t).2 = t ++ [r] →
  (dir r = sent ↔ user_id (author message) = DiscordCRMBot.self_id bot)
  ∧ (dir r = received ↔ user_id (author message) ≠ DiscordCRMBot.self_id bot).
Proof.
  intros Hr. apply appended_row_direction in Hr. rewrite Hr.
  unfold self_authored.
  destruct (String.eqb_spec (user_id (author message)) (DiscordCRMBot.self_id bot));
    split; split; done.
Qed.

Lemma direction_rule_witness :
  ∃ r1 r2,
    (persist Live bot_a1 m1 []).2 = [] ++ [r1] ∧ dir r1 = received
    ∧ (persist Backfill bot_a1 m2 []).2 = [] ++ [r2] ∧ dir r2 = sent.
Proof.
  eexists _, _. split; [reflexivity|]. split.
  - apply (direction_rule Live bot_a1 m1 []); [reflexivity | by cbn].
  - split; [reflexivity|].
    apply (direction_rule Backfill bot_a1 m2 []); reflexivity.
Defined.

(** C10. The live handler never throws, leaves the table alone for an
    event authored by the session's own user, and every row it stores
    has direction [received]. *)
Theorem live_rows_are_received bot message t :
  (DiscordCRMBot.messageCreate bot message t).1 = Returned tt
  ∧ (user_id (author message) = DiscordCRMBot.self_id bot →
     (DiscordCRMBot.messageCreate bot message t).2 = t)
  ∧ (∀ r, (DiscordCRMBot.messageCreate bot message t).2 = t ++ [r] →
          dir r = received).
Proof.
  unfold DiscordCRMBot.messageCreate.
  destruct (negb (is_DM (channel message))).
  { split; [done|]. split; [done|]. intros r Hr. by apply snoc_not_self in Hr. }
  destruct (String.eqb_spec (user_id (author message)) (DiscordCRMBot.self_id bot))
    as [Heq|Hne].
  { split; [done|]. split; [done|]. intros r Hr. by apply snoc_not_self in Hr. }
  unfold try_catch.
  destruct (DiscordCRMBot.recordMessage bot message t) as [o t'] eqn:Hrec.
  split; [by destruct o as [[]|e]|]. split; [done|].
  intros r Hr.
  assert ((persist Live bot message t).2 = t ++ [r]) as Hp.
  { unfold persist. rewrite Hrec. by destruct o. }
  apply appended_row_direction in Hp. rewrite Hp.
  unfold self_authored.
  by destruct (String.eqb_spec (user_id (author message)) (DiscordCRMBot.self_id bot)).
Qed.

Lemma live_rows_are_received_witness :
  ∃ r, (DiscordCRMBot.messageCreate bot_a1 m1 []).2 = [] ++ [r]
       ∧ dir r = received
       ∧ (DiscordCRMBot.messageCreate bot_a1 m2 []).2 = [].
Proof.
  destruct (live_rows_are_received bot_a1 m1 []) as (_ & _ & H1).
  destruct (live_rows_are_received bot_a1 m2 []) as (_ & H2 & _).
  eexists. split; [reflexivity|]. split.
  - apply H1. reflexivity.
  - apply H2. reflexivity.
Defined.

End Claims_recorder.

(** ** The history importer *)
Section Sorted_lists.
Context {A : Type} (R : relation A).

Lemma strongly_sorted_filter (P : A → Prop) `{!∀ x, Decision (P x)} l :
  StronglySorted R l → StronglySorted R (filter P l).
Proof.
  induction 1 as [|x l Hs IH Hall]; [constructor|].
  rewrite filter_cons. destruct (decide (P x)); [|done].
  constructor; [done|].
  apply Forall_forall. intros y [_ Hy]%list_elem_of_filter.
  rewrite Forall_forall in Hall. by apply Hall.
Qed.

Lemma strongly_sorted_take n l :
  StronglySorted R l → StronglySorted R (take n l).
Proof.
  intros Hs. rewrite <- (take_drop n l) in Hs.
  by apply StronglySorted_app_1_l in Hs.
Qed.

Lemma strongly_sorted_reverse l :
  StronglySorted R l → StronglySorted (flip R) (reverse l).
Proof.
  induction 1 as [|x l Hs IH Hall]; [constructor|].
  rewrite reverse_cons. apply StronglySorted_app.
  split; [|split; [done | repeat constructor]].
  intros y z Hy Hz. rewrite elem_of_reverse in Hy.
  apply list_elem_of_singleton in Hz. subst z.
  unfold flip. rewrite Forall_forall in Hall. by apply Hall.
Qed.

End Sorted_lists.

Lemma filter_ext_in {A} (P Q : A → Prop)
    `{!∀ x, Decision (P x), !∀ x, Decision (Q x)} (l : list A) :
  (∀ x, x ∈ l → P x ↔ Q x) → filter P l = filter Q l.
Proof.
  induction l as [|x l IH]; intros Hext; [done|].
  rewrite !filter_cons.
  assert (filter P l = filter Q l) as ->.
  { apply IH. intros y Hy. apply Hext. by apply list_elem_of_further. }
  pose proof (Hext x (list_elem_of_here _ _)) as Hx.
  destruct (decide (P x)), (decide (Q x)); [done | tauto | tauto | done].
Qed.

Section History_import.
Variable bot : DiscordCRMBot.t.
Implicit Types (t : table) (message : Message) (ch : Channel).

Lemma importable_after_insert t u x message :
  message_id message ≠ message_id x →
  importable (t ++ [DiscordCRMBot.imported_row bot u x]) message
  = importable t message.
Proof.
  intros Hne. unfold importable. do 2 f_equal.
  rewrite existsb_app. cbn [existsb].
  unfold has_remote_id at 2. cbn [DiscordCRMBot.imported_row discord_message_id].
  rewrite bool_decide_eq_false_2; [by rewrite !orb_false_r|].
  intros [= ?]. done.
Qed.

(** The inner loop over a page whose channel has a resolved peer. *)
Lemma import_page_run ch u ms t :
  recipient ch = Some u →
  unique_remote_ids t →
  NoDup (message_id <$> ms) →
  for_of ms (DiscordCRMBot.importMessage bot ch) t =
    (Returned tt,
     t ++ ((λ m, DiscordCRMBot.imported_row bot u m)
             <$> filter (λ m, importable t m = true) ms)).
Proof.
  intros Hch. revert t.
  induction ms as [|x ms IH]; intros t Hu Hnd.
  { cbn. by rewrite app_nil_r. }
  rewrite fmap_cons in Hnd. apply NoDup_cons in Hnd as [Hx Hnd].
  cbn [for_of]. unfold bind at 1.
  rewrite importMessage_run by done. rewrite filter_cons.
  assert (importable t x
          = negb (negb (truthy (message_content x)) || system x)
            && negb (existsb (has_remote_id (message_id x)) t)) as Himp.
  { unfold importable. by destruct (truthy _), (system x). }
  rewrite Himp.
  destruct (negb (truthy (message_content x)) || system x).
  { rewrite decide_False by (by intros ?). by apply IH. }
  destruct (existsb (has_remote_id (message_id x)) t) eqn:Ex.
  { rewrite decide_False by (by intros ?). by apply IH. }
  rewrite Hch. rewrite decide_True by done.
  rewrite IH; [| |done].
  - rewrite fmap_cons, <- app_assoc. cbn [app]. do 4 f_equal.
    apply filter_ext_in. intros m Hm.
    rewrite importable_after_insert; [done|].
    intros Heq. apply Hx. rewrite <- Heq. by apply list_elem_of_fmap_2.
  - pose proof (insert_keeps_unique (DiscordCRMBot.imported_row bot u x) t Hu) as H.
    rewrite insert_run in H. unfold violates_unique in H.
    cbn [DiscordCRMBot.imported_row discord_message_id] in H. by rewrite Ex in H.
Qed.

(** Without a resolved peer the loop stores nothing. *)
Lemma import_page_no_peer ch ms t :
  recipient ch = None →
  (for_of ms (DiscordCRMBot.importMessage bot ch) t).2 = t.
Proof.
  intros Hch. induction ms as [|x ms IH]; [done|].
  cbn [for_of]. unfold bind at 1.
  destruct (importMessage_appends bot ch x t) as [H|(u & Hu & _)];
    [|congruence].
  destruct (DiscordCRMBot.importMessage bot ch x t) as [[[]|e] t']; simpl in H; subst t'.
  - done.
  - done.
Qed.

Lemma imported_rows_oldest_first u ms :
  newest_first ms →
  oldest_first ((λ m, DiscordCRMBot.imported_row bot u m) <$> reverse ms).
Proof.
  intros Hs. unfold oldest_first.
  apply (StronglySorted_fmap _ (flip (λ m1 m2, (createdAt m2 ≤ createdAt m1)%Z))).
  - intros m1 m2 H. exact H.
  - by apply strongly_sorted_reverse.
Qed.

End History_import.

Section Read_back.

Lemma timestamp_le_total : Total timestamp_le.
Proof. intros r1 r2. unfold timestamp_le. lia. Qed.

Lemma timestamp_le_trans : Transitive timestamp_le.
Proof. intros r1 r2 r3. unfold timestamp_le. lia. Qed.

Lemma filter_all {A} (P : A → Prop) `{!∀ x, Decision (P x)} (l : list A) :
  Forall P l → filter P l = l.
Proof.
  induction 1 as [|x l Hx Hl IH]; [done|].
  by rewrite filter_cons, decide_True, IH.
Qed.

Lemma NoDup_fmap_elem_eq {A B} (f : A → B) (l : list A) x y :
  NoDup (f <$> l) → x ∈ l → y ∈ l → f x = f y → x = y.
Proof.
  induction l as [|z l IH]; intros Hnd Hx Hy Heq.
  { by apply not_elem_of_nil in Hx. }
  rewrite fmap_cons in Hnd. apply NoDup_cons in Hnd as [Hz Hnd].
  apply elem_of_cons in Hx as [->|Hx]; apply elem_of_cons in Hy as [->|Hy].
  - done.
  - exfalso. apply Hz. rewrite Heq. by apply list_elem_of_fmap_2.
  - exfalso. apply Hz. rewrite <- Heq. by apply list_elem_of_fmap_2.
  - by apply IH.
Qed.

Lemma NoDup_fmap_page {B} (f : Message → B) (P : Message → Prop)
    `{!∀ x, Decision (P x)} n (hist : list Message) :
  NoDup (f <$> hist) → NoDup (f <$> filter P (reverse (take n hist))).
Proof.
  intros Hnd. eapply sublist_NoDup; [|apply fmap_sublist, sublist_filter].
  rewrite fmap_reverse, reverse_Permutation, fmap_take.
  eapply sublist_NoDup; [exact Hnd | apply sublist_take].
Qed.

(** Reading a conversation back in timestamp order returns rows that
    were stored oldest first, with distinct timestamps, as stored. *)
Lemma load_sorted_conversation a u (rows : table) :
  Forall (λ r, in_conversation a u r = true) rows →
  oldest_first rows →
  NoDup (timestamp <$> rows) →
  loadMessages a u rows = rows.
Proof.
  intros Hconv Hs Hnd. unfold loadMessages. rewrite filter_all by done.
  apply (StronglySorted_unique_strong timestamp_le).
  - intros r1 r2 H1 H2 H12 H21.
    rewrite merge_sort_Permutation in H1.
    apply (NoDup_fmap_elem_eq timestamp rows); [done..|].
    unfold timestamp_le in *. lia.
  - pose proof timestamp_le_total. pose proof timestamp_le_trans.
    by apply StronglySorted_merge_sort.
  - done.
  - apply merge_sort_Permutation.
Qed.

End Read_back.

Section Claims_importer.
Import Sample.

(** C3. For a channel whose history the backend delivers newest first,
    the importer fetches a page of at most 50 messages and appends rows
    to the table in oldest-first order. With a resolved peer these rows
    are exactly the rows of the page's messages that are not skipped
    (non-empty content, not a system message, remote id not yet stored),
    taken in reverse delivery order; read back in ascending timestamp
    order they come out as stored. *)
Theorem import_is_chronological B bot ch hist t :
  history B ch = inr hist →
  newest_first hist →
  NoDup (message_id <$> hist) →
  unique_remote_ids t →
  ∃ new,
    DiscordCRMBot.importChannel B bot ch t = (Returned tt, t ++ new)
    ∧ (length (take 50 hist) ≤ 50)%nat
    ∧ oldest_first new
    ∧ (∀ u, recipient ch = Some u →
         new = (λ m, DiscordCRMBot.imported_row bot u m)
                 <$> filter (λ m, importable t m = true) (reverse (take 50 hist))
         ∧ (NoDup (createdAt <$> hist) →
            loadMessages (DiscordCRMBot.accountId bot) (user_id u) new = new)).
Proof.
  intros Hhist Hs Hnd Hu.
  assert (DiscordCRMBot.importChannel B bot ch t
          = match for_of (reverse (take 50 hist)) (DiscordCRMBot.importMessage bot ch) t with
            | (Returned a, t') => (Returned a, t')
            | (Threw _, t') => (Returned tt, t')
            end) as Hrun.
  { unfold DiscordCRMBot.importChannel, try_catch, bind, messages_fetch.
    rewrite Hhist. cbn [await ret]. by destruct (for_of _ _ t) as [[a|e] t']. }
  assert (StronglySorted (flip (λ m1 m2, (createdAt m2 ≤ createdAt m1)%Z))
            (filter (λ m, importable t m = true) (reverse (take 50 hist)))) as Hsorted.
  { by apply strongly_sorted_filter, strongly_sorted_reverse, strongly_sorted_take. }
  destruct (recipient ch) as [u|] eqn:Hch.
  - exists ((λ m, DiscordCRMBot.imported_row bot u m)
              <$> filter (λ m, importable t m = true) (reverse (take 50 hist))).
    assert (oldest_first
              ((λ m, DiscordCRMBot.imported_row bot u m)
                 <$> filter (λ m, importable t m = true) (reverse (take 50 hist))))
      as Hold.
    { unfold oldest_first.
      eapply StronglySorted_fmap; [|exact Hsorted]. intros m1 m2 H. exact H. }
    split.
    { rewrite Hrun, (import_page_run bot ch u); [done..|].
      rewrite fmap_reverse, reverse_Permutation, fmap_take.
      eapply sublist_NoDup; [exact Hnd | apply sublist_take]. }
    split; [rewrite length_take; lia|].
    split; [done|].
    intros u' [= <-]. split; [done|]. intros Hts.
    apply load_sorted_conversation; [|done|].
    + apply Forall_fmap, Forall_forall. intros m _.
      unfold in_conversation, compose.
      cbn [DiscordCRMBot.imported_row account_id discord_user_id].
      by rewrite !String.eqb_refl.
    + rewrite <- list_fmap_compose.
      by apply (NoDup_fmap_page (timestamp ∘ _)).
  - exists []. split.
    { rewrite Hrun, app_nil_r.
      pose proof (import_page_no_peer bot ch (reverse (take 50 hist)) t Hch) as H.
      destruct (for_of _ _ t) as [[[]|e] t']; simpl in H; by subst t'. }
    split; [rewrite length_take; lia|].
    split; [constructor|]. intros u [=].
Qed.

Lemma import_is_chronological_witness :
  ∃ new,
    DiscordCRMBot.importChannel (backend response_ok) bot_a1 dm_peer [] = (Returned tt, new)
    ∧ (timestamp <$> new) = [1000; 2000; 3000]%Z
    ∧ oldest_first new
    ∧ loadMessages "a1" "p1" new = new.
Proof.
  destruct (import_is_chronological (backend response_ok) bot_a1 dm_peer
              [m3; m2; m1] []) as (new & Hrun & _ & Hold & Hnew).
  - reflexivity.
  - repeat constructor; cbn; lia.
  - apply (bool_decide_unpack _). vm_compute. exact I.
  - apply NoDup_nil_2.
  - destruct (Hnew peer eq_refl) as [Heq Hload].
    exists new. split; [exact Hrun|]. split; [by rewrite Heq|].
    split; [exact Hold|]. apply Hload.
    apply (bool_decide_unpack _). vm_compute. exact I.
Defined.

End Claims_importer.

(** ** The registry and the send path *)
Section Manager.
Import BotManager.
Variable B : Backend.
Implicit Types (w : World) (a token : string).

Lemma fetchExistingDMs_returns bot t :
  (DiscordCRMBot.fetchExistingDMs B bot t).1 = Returned tt.
Proof.
  unfold DiscordCRMBot.fetchExistingDMs, try_catch.
  by destruct (for_of _ _ t) as [[[]|e] t'].
Qed.

(** The session that [start] hands to the registry. *)
Lemma start_run token a w :
  start B token a w =
    match login B token with
    | inl r => (Threw (Native (rej_name r) (rej_message r)), w)
    | inr client =>
        let bot := {| DiscordCRMBot.token := token;
                      DiscordCRMBot.accountId := a;
                      DiscordCRMBot.client := client |} in
        (Returned bot,
         {| bots := bots w;
            connections := a :: connections w;
            messages := (DiscordCRMBot.fetchExistingDMs B bot (messages w)).2 |})
    end.
Proof.
  unfold start, try_catch, bind at 1.
  destruct (login B token) as [r|client]; [done|].
  cbn [await ret]. unfold bind, modify, try_catch, on_messages, zoom.
  cbn [messages set_connections].
  pose proof (fetchExistingDMs_returns
                {| DiscordCRMBot.token := token; DiscordCRMBot.accountId := a;
                   DiscordCRMBot.client := client |} (messages w)) as Hret.
  destruct (DiscordCRMBot.fetchExistingDMs B _ (messages w)) as [[[]|e] t'];
    [done | discriminate].
Qed.

Lemma addBot_run a token w :
  addBot B a token w =
    match bots w !! a with
    | Some _ => (Returned tt, w)
    | None =>
        match login B token with
        | inl r => (Threw (Native (rej_name r) (rej_message r)), w)
        | inr client =>
            let bot := {| DiscordCRMBot.token := token;
                          DiscordCRMBot.accountId := a;
                          DiscordCRMBot.client := client |} in
            (Returned tt,
             {| bots := <[a := bot]> (bots w);
                connections := a :: connections w;
                messages := (DiscordCRMBot.fetchExistingDMs B bot (messages w)).2 |})
        end
    end.
Proof.
  unfold addBot, bind at 1, get.
  destruct (bots w !! a); [done|].
  unfold bind. rewrite start_run.
  by destruct (login B token).
Qed.

Lemma removeBot_run a w :
  removeBot a w =
    match bots w !! a with
    | Some bot =>
        (Returned tt,
         {| bots := delete a (bots w);
            connections := remove_one (DiscordCRMBot.accountId bot) (connections w);
            messages := messages w |})
    | None => (Returned tt, w)
    end.
Proof.
  unfold removeBot, bind at 1, get. by destruct (bots w !! a).
Qed.

Lemma live_sessions_cons a b w f t :
  live_sessions a {| bots := f; connections := b :: connections w; messages := t |}
  = ((if decide (b = a) then 1 else 0) + live_sessions a w)%nat.
Proof.
  unfold live_sessions. cbn [connections]. rewrite filter_cons.
  by destruct (decide (b = a)).
Qed.

(** [addBot] keeps the registry and the live sessions in agreement. *)
Lemma addBot_consistent a token w :
  registry_consistent w → registry_consistent (addBot B a token w).2.
Proof.
  intros Hc. rewrite addBot_run.
  destruct (bots w !! a) eqn:Ea; [done|].
  destruct (login B token) as [r|client]; [done|].
  cbn [snd]. intros b. cbn [bots]. rewrite live_sessions_cons.
  specialize (Hc b). destruct (decide (a = b)) as [<-|Hne].
  - rewrite lookup_insert_eq. rewrite Ea in Hc. rewrite Hc. done.
  - rewrite lookup_insert_ne by done.
    destruct (bots w !! b); simpl; done.
Qed.

End Manager.

Section Claims_registry.
Import BotManager Sample.

(** Calls that do not overlap. On a registry that agrees with the live
    sessions, once [addBot] has returned normally for an account, a second
    [addBot] for
    the same account, with any credential, returns normally and changes
    nothing: the account is registered and has exactly one live session.
    [removeBot] for an account that is not registered returns normally
    and changes nothing. The change-feed handlers inherit both. *)
Theorem registry_idempotent B w a token1 token2 :
  registry_consistent w →
  (addBot B a token1 w).1 = Returned tt →
  let w1 := (addBot B a token1 w).2 in
  addBot B a token2 w1 = (Returned tt, w1)
  ∧ on_account_insert B a token2 w1 = (Returned tt, w1)
  ∧ is_Some (bots w1 !! a)
  ∧ live_sessions a w1 = 1%nat
  ∧ registry_consistent w1
  ∧ (∀ w' b, bots w' !! b = None →
       removeBot b w' = (Returned tt, w')
       ∧ on_account_delete b w' = (Returned tt, w')).
Proof.
  intros Hc Hret w1.
  assert (is_Some (bots w1 !! a)) as Hreg.
  { subst w1. rewrite addBot_run in Hret |- *.
    destruct (bots w !! a) eqn:Ea; [cbn [snd]; rewrite Ea; by eexists|].
    destruct (login B token1); [discriminate|].
    cbn [snd bots]. rewrite lookup_insert_eq. by eexists. }
  assert (registry_consistent w1) as Hc1 by by apply addBot_consistent.
  assert (addBot B a token2 w1 = (Returned tt, w1)) as Hnoop.
  { rewrite addBot_run. by destruct Hreg as [bot ->]. }
  split; [done|].
  split; [unfold on_account_insert, try_catch; by rewrite Hnoop|].
  split; [done|].
  split.
  { specialize (Hc1 a). destruct Hreg as [bot Hbot].
    rewrite Hbot in Hc1. by destruct Hc1. }
  split; [done|].
  intros w' b Hb. unfold on_account_delete. rewrite removeBot_run, Hb. done.
Qed.

Lemma registry_idempotent_witness :
  let w1 := (addBot (backend response_ok) "a1" "tok1" world0).2 in
  addBot (backend response_ok) "a1" "tok2" w1 = (Returned tt, w1)
  ∧ live_sessions "a1" w1 = 1%nat
  ∧ removeBot "a2" w1 = (Returned tt, w1).
Proof.
  destruct (registry_idempotent (backend response_ok) world0 "a1" "tok1" "tok2")
    as (H1 & _ & _ & H2 & _ & H3).
  - intros a. cbn. done.
  - reflexivity.
  - split; [exact H1|]. split; [exact H2|].
    apply (H3 _ "a2"). reflexivity.
Defined.

(** C7. When [start] fails for an account that is not registered, the
    failure of the login reaches the caller of [addBot] and the state of
    the service is unchanged: the account is still not registered and no
    session of it is live. *)
Theorem failed_start_not_registered B w a token r :
  bots w !! a = None →
  login B token = inl r →
  addBot B a token w = (Threw (Native (rej_name r) (rej_message r)), w)
  ∧ bots (addBot B a token w).2 !! a = None
  ∧ live_sessions a (addBot B a token w).2 = live_sessions a w.
Proof.
  intros Ha Hlogin. rewrite addBot_run, Ha, Hlogin. done.
Qed.

Lemma failed_start_not_registered_witness :
  addBot (backend response_ok) "a4" "bad-token" world_a1
  = (Threw (Native "Error" "An invalid token was provided."), world_a1)
  ∧ bots (addBot (backend response_ok) "a4" "bad-token" world_a1).2 !! "a4" = None.
Proof.
  destruct (failed_start_not_registered (backend response_ok) world_a1 "a4" "bad-token"
              {| rej_name := "Error"; rej_message := "An invalid token was provided." |})
    as (H1 & H2 & _).
  - reflexivity.
  - reflexivity.
  - split; [exact H1 | exact H2].
Defined.

End Claims_registry.

Section Send.
Import BotManager.
Variable B : Backend.
Implicit Types (w : World) (t : table) (bot : DiscordCRMBot.t).

Lemma recordSentMessage_run bot d channelId t :
  DiscordCRMBot.recordSentMessage B bot d channelId t =
    match cache_get (DiscordCRMBot.client bot) channelId with
    | None => (Returned tt, t)
    | Some ch =>
        if negb (is_DM ch) then (Returned tt, t)
        else match recipient ch with
             | None => (Threw (undefined_read "id"), t)
             | Some peer =>
                 if existsb (has_remote_id (api_id d)) t
                 then (Threw unique_violation, t)
                 else (Returned tt,
                       t ++ [{| account_id := DiscordCRMBot.accountId bot;
                                discord_message_id := Some (api_id d);
                                discord_user_id := user_id peer;
                                username := user_username peer;
                                avatar := avatar_url peer;
                                dir := sent;
                                content := api_content d;
                                timestamp := match api_timestamp d with
                                             | Some ts => ts
                                             | None => now B
                                             end |}])
             end
    end.
Proof.
  unfold DiscordCRMBot.recordSentMessage, try_catch.
  destruct (cache_get _ channelId) as [ch|]; [|done].
  destruct (negb (is_DM ch)); [done|].
  unfold bind, defined. destruct (recipient ch) as [peer|]; [|done].
  cbn [ret]. rewrite insert_run. unfold violates_unique.
  cbn [discord_message_id]. by destruct (existsb _ t).
Qed.

(** The session's [sendMessage]: what is thrown and what is returned. *)
Lemma bot_sendMessage_run bot channelId content t :
  DiscordCRMBot.sendMessage B bot channelId content t =
    match post_message B (DiscordCRMBot.token bot) channelId content with
    | inl r => (Threw (Native (rej_name r) (rej_message r)), t)
    | inr response =>
        if negb (ok response)
        then (Threw (DiscordCRMBot.api_error response), t)
        else match message_data response with
             | None => (Threw (Native "SyntaxError" "Unexpected end of JSON input"), t)
             | Some d =>
                 (Returned {| DiscordCRMBot.success := true;
                              DiscordCRMBot.message := "Message sent successfully";
                              DiscordCRMBot.messageId := api_id d;
                              DiscordCRMBot.result_content := api_content d |},
                  (DiscordCRMBot.recordSentMessage B bot d channelId t).2)
             end
    end.
Proof.
  unfold DiscordCRMBot.sendMessage, try_catch at 1, bind at 1.
  destruct (post_message B _ channelId content) as [r|response]; [done|].
  cbn [await ret]. destruct (negb (ok response)); [done|].
  unfold bind at 1. destruct (message_data response) as [d|]; [|done].
  cbn [ret]. unfold bind, try_catch.
  by destruct (DiscordCRMBot.recordSentMessage B bot d channelId t) as [[[]|e] t'].
Qed.

Lemma sendMessage_run a userId content w :
  sendMessage B a userId content w =
    match bots w !! a with
    | None => (Threw (not_found a), w)
    | Some bot =>
        match users_fetch B (DiscordCRMBot.client bot) userId with
        | inl r => (Threw (Native (rej_name r) (rej_message r)), w)
        | inr user =>
            match createDM B (DiscordCRMBot.client bot) user with
            | inl r => (Threw (Native (rej_name r) (rej_message r)), w)
            | inr dm =>
                ((DiscordCRMBot.sendMessage B bot (channel_id dm) content (messages w)).1,
                 set_messages
                   (DiscordCRMBot.sendMessage B bot (channel_id dm) content (messages w)).2
                   w)
            end
        end
    end.
Proof.
  unfold sendMessage, bind at 1, get.
  destruct (bots w !! a) as [bot|]; [|done].
  unfold try_catch, bind at 1.
  destruct (users_fetch B _ userId) as [r|user]; [done|].
  cbn [await ret]. unfold bind.
  destruct (createDM B _ user) as [r|dm]; [done|].
  cbn [await ret]. unfold on_messages, zoom.
  by destruct (DiscordCRMBot.sendMessage B bot (channel_id dm) content (messages w))
    as [[res|e] t'].
Qed.

Lemma set_messages_same w : set_messages (messages w) w = w.
Proof. by destruct w. Qed.

(** No failure of a registered session is the registry's not-found
    error. *)
Lemma bot_sendMessage_not_not_found bot channelId content t a :
  (DiscordCRMBot.sendMessage B bot channelId content t).1 ≠ Threw (not_found a).
Proof.
  rewrite bot_sendMessage_run.
  destruct (post_message B _ channelId content) as [r|response]; [done|].
  destruct (negb (ok response)).
  - unfold DiscordCRMBot.api_error, not_found. cbn. intros [=].
  - by destruct (message_data response).
Qed.

End Send.

Section Claims_send.
Import BotManager Sample.

(** C9. [sendMessage] of the registry fails with the not-found error
    exactly when no session is registered for the account; the endpoint
    then answers 500 with that error's message. *)
Theorem not_found_iff_unregistered B w a userId content :
  ((sendMessage B a userId content w).1 = Threw (not_found a)
   ↔ bots w !! a = None)
  ∧ (bots w !! a = None →
     sendMessage B a userId content w = (Threw (not_found a), w)
     ∧ (truthy a = true → truthy userId = true → truthy content = true →
        post_send_message B (request a userId content) w
        = ({| reply_status := 500%N;
              reply_body := ErrorReply ("No bot found for account " +:+ a) |}, w))).
Proof.
  assert (bots w !! a = None →
          sendMessage B a userId content w = (Threw (not_found a), w)) as Hnone.
  { intros Ha. by rewrite sendMessage_run, Ha. }
  split.
  - split; [|intros Ha; by rewrite Hnone].
    rewrite sendMessage_run.
    destruct (bots w !! a) as [bot|]; [|done].
    destruct (users_fetch B _ userId) as [r|user]; [done|].
    destruct (createDM B _ user) as [r|dm]; [done|].
    cbn [fst]. intros H. by apply bot_sendMessage_not_not_found in H.
  - intros Ha. split; [by apply Hnone|].
    intros Ta Tu Tc. unfold post_send_message, request, missing.
    cbn [req_accountId req_userId req_content].
    rewrite Ta, Tu, Tc. cbn [negb orb]. by rewrite Hnone.
Qed.

Lemma not_found_iff_unregistered_witness :
  sendMessage (backend response_ok) "a7" "p1" "hello" world_a1
  = (Threw (Error "No bot found for account a7"), world_a1)
  ∧ (sendMessage (backend response_429) "a1" "p1" "hello" world_a1).1
    ≠ Threw (not_found "a1").
Proof.
  destruct (not_found_iff_unregistered (backend response_ok) world_a1 "a7" "p1" "hello")
    as [_ H1].
  destruct (not_found_iff_unregistered (backend response_429) world_a1 "a1" "p1" "hello")
    as [H2 _].
  split.
  - apply H1. reflexivity.
  - intros H. apply H2 in H. discriminate H.
Defined.

(** C8 (as the code has it). A backend answer that is not ok, rate
    limiting included, makes [sendMessage] throw a plain [Error] whose
    message is "Discord API error", the status number and the message
    of the body (or the status text); nothing is stored, and the endpoint
    answers 500 with that message. The status number inside the text is
    the only trace of rate limiting. *)
Theorem non_ok_answer_is_generic_error B w a userId content bot user dm response :
  bots w !! a = Some bot →
  users_fetch B (DiscordCRMBot.client bot) userId = inr user →
  createDM B (DiscordCRMBot.client bot) user = inr dm →
  post_message B (DiscordCRMBot.token bot) (channel_id dm) content = inr response →
  ok response = false →
  let text := "Discord API error " +:+ pretty (status response) +:+ ": "
              +:+ or_else (error_message response) (statusText response) in
  sendMessage B a userId content w = (Threw (Error text), w)
  ∧ class_of (Error text) = "Error"
  ∧ (truthy a = true → truthy userId = true → truthy content = true →
     post_send_message B (request a userId content) w
     = ({| reply_status := 500%N; reply_body := ErrorReply text |}, w)).
Proof.
  intros Hbot Huser Hdm Hpost Hok text.
  assert (sendMessage B a userId content w = (Threw (Error text), w)) as Hrun.
  { rewrite sendMessage_run, Hbot, Huser, Hdm, bot_sendMessage_run, Hpost, Hok.
    cbn [negb fst snd]. by rewrite set_messages_same. }
  split; [done|]. split; [done|].
  intros Ta Tu Tc. unfold post_send_message, request, missing.
  cbn [req_accountId req_userId req_content].
  rewrite Ta, Tu, Tc. cbn [negb orb]. by rewrite Hrun.
Qed.

Lemma non_ok_answer_is_generic_error_witness :
  sendMessage (backend response_429) "a1" "p1" "hello" world_a1
  = (Threw (Error "Discord API error 429: You are being rate limited."), world_a1)
  ∧ post_send_message (backend response_429) (request "a1" "p1" "hello") world_a1
    = ({| reply_status := 500%N;
          reply_body := ErrorReply "Discord API error 429: You are being rate limited." |},
       world_a1).
Proof.
  destruct (non_ok_answer_is_generic_error (backend response_429) world_a1
              "a1" "p1" "hello" bot_a1 peer dm_peer response_429)
    as (H1 & _ & H2); try reflexivity.
  split; [exact H1|]. apply H2; reflexivity.
Defined.

(** C8 as stated fails: the answer to rate limiting (429) and the answer
    to a server failure (500) surface as errors of the same class, and
    the endpoint answers both with the same status. *)
Lemma rate_limited_not_distinct_counterexample :
  ∃ e429 e500,
    (sendMessage (backend response_429) "a1" "p1" "hello" world_a1).1 = Threw e429
    ∧ (sendMessage (backend response_500) "a1" "p1" "hello" world_a1).1 = Threw e500
    ∧ class_of e429 = class_of e500
    ∧ reply_status
        (post_send_message (backend response_429) (request "a1" "p1" "hello") world_a1).1
      = reply_status
          (post_send_message (backend response_500) (request "a1" "p1" "hello") world_a1).1.
Proof.
  exists (Error "Discord API error 429: You are being rate limited."),
         (Error "Discord API error 500: Internal Server Error").
  split; [reflexivity|]. split; [reflexivity|]. split; reflexivity.
Qed.

End Claims_send.

(** ** The registry invariant is kept by removal and by sending *)
Section Registry_invariant.
Import BotManager.

Lemma filter_remove_one_same a (l : list string) :
  length (filter (λ x, x = a) (remove_one a l))
  = pred (length (filter (λ x, x = a) l)).
Proof.
  induction l as [|y l IH]; [done|].
  cbn [remove_one]. destruct (String.eqb_spec a y) as [<-|Hne].
  - rewrite filter_cons, decide_True by done. done.
  - rewrite !filter_cons, !decide_False by congruence. done.
Qed.

Lemma filter_remove_one_other a b (l : list string) :
  a ≠ b →
  filter (λ x, x = b) (remove_one a l) = filter (λ x, x = b) l.
Proof.
  intros Hne. induction l as [|y l IH]; [done|].
  cbn [remove_one]. destruct (String.eqb_spec a y) as [<-|Hy].
  - rewrite filter_cons, decide_False by done. done.
  - rewrite !filter_cons, IH. done.
Qed.

Lemma removeBot_consistent a w :
  registry_consistent w → registry_consistent (removeBot a w).2.
Proof.
  intros Hc. rewrite removeBot_run.
  destruct (bots w !! a) as [bot|] eqn:Ea; [|done].
  pose proof (Hc a) as Ha. rewrite Ea in Ha. destruct Ha as [Hid Hlive].
  rewrite Hid. cbn [snd]. intros b. cbn [bots].
  unfold live_sessions in *. cbn [connections].
  destruct (decide (a = b)) as [<-|Hne].
  - rewrite lookup_delete_eq, filter_remove_one_same, Hlive. done.
  - rewrite lookup_delete_ne by done. rewrite filter_remove_one_other by done.
    apply Hc.
Qed.

Lemma sendMessage_consistent B a userId content w :
  registry_consistent w →
  registry_consistent (sendMessage B a userId content w).2.
Proof.
  intros Hc. rewrite sendMessage_run.
  destruct (bots w !! a) as [bot|]; [|done].
  destruct (users_fetch B _ userId) as [r|user]; [done|].
  by destruct (createDM B _ user) as [r|dm].
Qed.

End Registry_invariant.

(** * Further properties of the service *)

(** ** The history importer as a whole *)
Section Import_whole.
Variable B : Backend.
Variable bot : DiscordCRMBot.t.
Implicit Types (t : table) (ch : Channel) (message : Message).

Lemma passed_over_mono t new message :
  passed_over t message → passed_over (t ++ new) message.
Proof.
  intros [H|H]; [by left|]. right.
  unfold remote_ids. rewrite omap_app. apply elem_of_app. by left.
Qed.

(** One step of the inner loop: the table is kept, or one well-formed
    row is appended. *)
Lemma importMessage_step ch message t :
  (DiscordCRMBot.importMessage bot ch message t).2 = t
  ∨ ∃ r, (DiscordCRMBot.importMessage bot ch message t).2 = t ++ [r]
         ∧ imported_by bot r
         ∧ violates_unique r t = false.
Proof.
  unfold DiscordCRMBot.importMessage.
  destruct (negb (truthy (message_content message)) || system message) eqn:Ef;
    [by left|].
  apply orb_false_iff in Ef as [Ec _]. apply negb_false_iff in Ec.
  unfold bind, select_single.
  assert (∀ t0, (match recipient ch with
                 | Some u => insert (DiscordCRMBot.imported_row bot u message) t0
                 | None => (Threw (undefined_read "id"), t0)
                 end).2 = t0
          ∨ ∃ r, (match recipient ch with
                  | Some u => insert (DiscordCRMBot.imported_row bot u message) t0
                  | None => (Threw (undefined_read "id"), t0)
                  end).2 = t0 ++ [r]
                 ∧ imported_by bot r ∧ violates_unique r t0 = false) as Hins.
  { intros t0. destruct (recipient ch) as [u|]; [|by left].
    rewrite insert_run.
    destruct (violates_unique _ t0) eqn:Ev; [by left|]. right.
    eexists. split; [done|]. split; [|done].
    unfold imported_by. cbn [DiscordCRMBot.imported_row account_id content discord_message_id].
    split; [done|]. split; [done|]. by eexists. }
  specialize (Hins t).
  destruct (filter _ t) as [|r0 [|r1 l]]; [| by left |].
  - unfold defined. destruct (recipient ch) as [u|]; [|by left].
    cbn [ret]. destruct (insert _ t) as [[o|e] t'] eqn:Ei; exact Hins.
  - unfold defined. destruct (recipient ch) as [u|]; [|by left].
    cbn [ret]. destruct (insert _ t) as [[o|e] t'] eqn:Ei; exact Hins.
Qed.

Lemma unique_snoc t r :
  unique_remote_ids t → violates_unique r t = false → unique_remote_ids (t ++ [r]).
Proof.
  intros Hu Hv. pose proof (insert_keeps_unique r t Hu) as H.
  rewrite insert_run, Hv in H. exact H.
Qed.

(** The inner loop only appends well-formed rows and keeps remote ids
    unique. *)
Lemma import_page_appends ch ms t :
  ∃ new, (for_of ms (DiscordCRMBot.importMessage bot ch) t).2 = t ++ new
         ∧ Forall (imported_by bot) new
         ∧ (unique_remote_ids t → unique_remote_ids (t ++ new)).
Proof.
  revert t. induction ms as [|x ms IH]; intros t.
  { exists []. rewrite app_nil_r. done. }
  cbn [for_of]. unfold bind at 1.
  destruct (importMessage_step ch x t) as [H|(r & H & Hr & Hv)].
  - destruct (DiscordCRMBot.importMessage bot ch x t) as [[[]|e] t'] eqn:E;
      simpl in H; subst t'.
    + apply IH.
    + exists []. rewrite app_nil_r. done.
  - destruct (DiscordCRMBot.importMessage bot ch x t) as [[[]|e] t'] eqn:E;
      simpl in H; subst t'.
    + destruct (IH (t ++ [r])) as (new & Hnew & Hall & Hu).
      exists (r :: new). rewrite Hnew, <- app_assoc. split; [done|].
      split; [by constructor|].
      intros Hut.
      replace (t ++ r :: new) with ((t ++ [r]) ++ new) by (by rewrite <- app_assoc).
      apply Hu. by apply unique_snoc.
    + exists [r]. split; [done|]. split; [constructor; [done|constructor]|].
      intros Hut. by apply unique_snoc.
Qed.

(** With a resolved peer, every message of the page is passed over on
    the table the loop leaves. *)
Lemma import_page_settles ch u ms t :
  recipient ch = Some u → unique_remote_ids t →
  ∀ message, message ∈ ms →
    passed_over (for_of ms (DiscordCRMBot.importMessage bot ch) t).2 message.
Proof.
  intros Hch. revert t. induction ms as [|x ms IH]; intros t Hu message Hm.
  { by apply not_elem_of_nil in Hm. }
  cbn [for_of]. unfold bind at 1.
  rewrite importMessage_run by done. rewrite Hch.
  destruct (negb (truthy (message_content x)) || system x) eqn:Ef.
  { apply elem_of_cons in Hm as [->|Hm]; [|by apply IH].
    destruct (import_page_appends ch ms t) as (new & -> & _).
    apply passed_over_mono. by left. }
  destruct (existsb (has_remote_id (message_id x)) t) eqn:Ex.
  { apply elem_of_cons in Hm as [->|Hm]; [|by apply IH].
    destruct (import_page_appends ch ms t) as (new & -> & _).
    apply passed_over_mono. right. by apply stored_iff_remote_id. }
  assert (unique_remote_ids (t ++ [DiscordCRMBot.imported_row bot u x])) as Hu'.
  { apply unique_snoc; [done|]. unfold violates_unique.
    cbn [DiscordCRMBot.imported_row discord_message_id]. done. }
  apply elem_of_cons in Hm as [->|Hm]; [|by apply IH].
  destruct (import_page_appends ch ms (t ++ [DiscordCRMBot.imported_row bot u x]))
    as (new & -> & _).
  apply passed_over_mono. right.
  rewrite remote_ids_snoc. apply elem_of_app. right.
  cbn [DiscordCRMBot.imported_row discord_message_id option_list].
  apply list_elem_of_here.
Qed.

(** A page whose messages are all passed over is left alone. *)
Lemma import_page_noop ch ms t :
  unique_remote_ids t →
  (∀ message, message ∈ ms → passed_over t message) →
  for_of ms (DiscordCRMBot.importMessage bot ch) t = (Returned tt, t).
Proof.
  intros Hu. induction ms as [|x ms IH]; intros Hall; [done|].
  cbn [for_of]. unfold bind at 1. rewrite importMessage_run by done.
  assert (∀ message, message ∈ ms → passed_over t message) as Hrest.
  { intros m Hm. apply Hall. by apply list_elem_of_further. }
  destruct (Hall x (list_elem_of_here _ _)) as [Hf|Hs].
  - rewrite Hf. by apply IH.
  - apply stored_iff_remote_id in Hs. rewrite Hs.
    destruct (negb _ || _); by apply IH.
Qed.

(** The run of one channel, in terms of the inner loop. *)
Lemma importChannel_run ch t :
  DiscordCRMBot.importChannel B bot ch t =
    match history B ch with
    | inl _ => (Returned tt, t)
    | inr hist =>
        (Returned tt,
         (for_of (reverse (take 50 hist)) (DiscordCRMBot.importMessage bot ch) t).2)
    end.
Proof.
  unfold DiscordCRMBot.importChannel, try_catch, bind, messages_fetch.
  destruct (history B ch) as [r|hist]; [done|].
  cbn [await ret]. by destruct (for_of _ _ t) as [[[]|e] t'].
Qed.

Lemma importChannel_appends ch t :
  ∃ new, DiscordCRMBot.importChannel B bot ch t = (Returned tt, t ++ new)
         ∧ Forall (imported_by bot) new
         ∧ (unique_remote_ids t → unique_remote_ids (t ++ new)).
Proof.
  rewrite importChannel_run. destruct (history B ch) as [r|hist].
  - exists []. rewrite app_nil_r. done.
  - destruct (import_page_appends ch (reverse (take 50 hist)) t) as (new & H & ?).
    exists new. by rewrite H.
Qed.

Lemma importChannel_settles ch t :
  unique_remote_ids t →
  nothing_to_import B ch (DiscordCRMBot.importChannel B bot ch t).2.
Proof.
  intros Hu. unfold nothing_to_import. rewrite importChannel_run.
  destruct (history B ch) as [r|hist]; [done|].
  destruct (recipient ch) as [u|] eqn:Hch; [right|by left].
  cbn [snd]. by apply (import_page_settles ch u).
Qed.

Lemma importChannel_noop ch t :
  unique_remote_ids t → nothing_to_import B ch t →
  DiscordCRMBot.importChannel B bot ch t = (Returned tt, t).
Proof.
  intros Hu Hn. rewrite importChannel_run. unfold nothing_to_import in Hn.
  destruct (history B ch) as [r|hist]; [done|].
  destruct Hn as [Hnone|Hall].
  - by rewrite import_page_no_peer.
  - by rewrite import_page_noop.
Qed.

Lemma nothing_to_import_mono ch t new :
  nothing_to_import B ch t → nothing_to_import B ch (t ++ new).
Proof.
  unfold nothing_to_import. destruct (history B ch) as [r|hist]; [done|].
  intros [?|Hall]; [by left|]. right.
  intros m Hm. by apply passed_over_mono, Hall.
Qed.

(** The outer loop over a list of channels. *)
Lemma import_channels_appends cs t :
  ∃ new, for_of cs (DiscordCRMBot.importChannel B bot) t = (Returned tt, t ++ new)
         ∧ Forall (imported_by bot) new
         ∧ (unique_remote_ids t →
            unique_remote_ids (t ++ new)
            ∧ ∀ ch, ch ∈ cs → nothing_to_import B ch (t ++ new)).
Proof.
  revert t. induction cs as [|c cs IH]; intros t.
  { exists []. rewrite app_nil_r. split; [done|]. split; [done|].
    intros Hu. split; [done|]. intros ch Hch. by apply not_elem_of_nil in Hch. }
  cbn [for_of]. unfold bind at 1.
  destruct (importChannel_appends c t) as (new1 & Hrun & Hall1 & Hu1).
  pose proof (importChannel_settles c t) as Hset. rewrite Hrun in Hset |- *.
  cbn [snd] in Hset.
  destruct (IH (t ++ new1)) as (new2 & Hrun2 & Hall2 & Hu2).
  exists (new1 ++ new2). rewrite Hrun2, <- app_assoc.
  split; [done|]. split; [by apply Forall_app|].
  intros Hu. rewrite (app_assoc t new1 new2).
  destruct (Hu2 (Hu1 Hu)) as [Huu Hn]. split; [done|].
  intros ch [->|Hch]%elem_of_cons; [|by apply Hn].
  apply nothing_to_import_mono. by apply Hset.
Qed.

Lemma import_channels_noop cs t :
  unique_remote_ids t →
  (∀ ch, ch ∈ cs → nothing_to_import B ch t) →
  for_of cs (DiscordCRMBot.importChannel B bot) t = (Returned tt, t).
Proof.
  intros Hu. induction cs as [|c cs IH]; intros Hall; [done|].
  cbn [for_of]. unfold bind at 1.
  rewrite importChannel_noop; [|done|apply Hall, list_elem_of_here].
  apply IH. intros ch Hch. by apply Hall, list_elem_of_further.
Qed.

Lemma fetchExistingDMs_run t :
  DiscordCRMBot.fetchExistingDMs B bot t =
    for_of (filter (λ ch, is_DM ch = true)
              (channels_cache (DiscordCRMBot.client bot)))
           (DiscordCRMBot.importChannel B bot) t.
Proof.
  unfold DiscordCRMBot.fetchExistingDMs, try_catch.
  destruct (import_channels_appends
              (filter (λ ch, is_DM ch = true)
                 (channels_cache (DiscordCRMBot.client bot))) t)
    as (new & -> & _). done.
Qed.

End Import_whole.

Section Extras_import.
Import Sample.

Lemma for_of_app {S A} (l1 l2 : list A) (body : A → M S unit) s :
  for_of (l1 ++ l2) body s = bind (for_of l1 body) (λ _, for_of l2 body) s.
Proof.
  revert s. induction l1 as [|x l1 IH]; intros s; [done|].
  cbn [app for_of]. unfold bind.
  destruct (body x s) as [[[]|e] s']; [|done].
  rewrite IH. done.
Qed.

Lemma importChannel_with_cache B bot cs ch t :
  DiscordCRMBot.importChannel B (with_cache bot cs) ch t
  = DiscordCRMBot.importChannel B bot ch t.
Proof. reflexivity. Qed.

(** X1. Running the history import again against the same backend
    answers changes nothing: on a table with unique remote ids, the
    second run returns normally and leaves the table of the first run. *)
Theorem import_rerun_changes_nothing B bot t :
  unique_remote_ids t →
  let t1 := (DiscordCRMBot.fetchExistingDMs B bot t).2 in
  DiscordCRMBot.fetchExistingDMs B bot t1 = (Returned tt, t1).
Proof.
  intros Hu t1. subst t1. rewrite !fetchExistingDMs_run.
  destruct (import_channels_appends B bot
              (filter (λ ch, is_DM ch = true)
                 (channels_cache (DiscordCRMBot.client bot))) t)
    as (new & Hrun & _ & Hafter).
  destruct (Hafter Hu) as [Hu1 Hquiet].
  rewrite Hrun. cbn [snd]. by apply import_channels_noop.
Qed.

Lemma import_rerun_changes_nothing_witness :
  let t1 := (DiscordCRMBot.fetchExistingDMs (backend response_ok) bot_a1 []).2 in
  length t1 = 3%nat
  ∧ DiscordCRMBot.fetchExistingDMs (backend response_ok) bot_a1 t1 = (Returned tt, t1).
Proof.
  split; [reflexivity|].
  apply (import_rerun_changes_nothing (backend response_ok) bot_a1 []).
  apply NoDup_nil_2.
Defined.

Lemma import_only_appends_rows B bot t :
  ∃ new,
    DiscordCRMBot.fetchExistingDMs B bot t = (Returned tt, t ++ new)
    ∧ Forall (imported_by bot) new
    ∧ (unique_remote_ids t → unique_remote_ids (t ++ new)).
Proof.
  rewrite fetchExistingDMs_run.
  destruct (import_channels_appends B bot
              (filter (λ ch, is_DM ch = true)
                 (channels_cache (DiscordCRMBot.client bot))) t)
    as (new & Hrun & Hall & Hafter).
  exists new. split; [done|]. split; [done|].
  intros Hu. by destruct (Hafter Hu).
Qed.

(** X2. The history import never throws and only appends: the rows
    already stored stay in place, every appended row belongs to the
    session's account, has a non-empty content and a remote id, and
    unique remote ids stay unique. *)
Theorem import_only_appends B bot t :
  ∃ new,
    DiscordCRMBot.fetchExistingDMs B bot t = (Returned tt, t ++ new)
    ∧ Forall (imported_by bot) new
    ∧ (unique_remote_ids t → unique_remote_ids (t ++ new)).
Proof.
  rewrite fetchExistingDMs_run.
  destruct (import_channels_appends B bot
              (filter (λ ch, is_DM ch = true)
                 (channels_cache (DiscordCRMBot.client bot))) t)
    as (new & Hrun & Hall & Hafter).
  exists new. split; [done|]. split; [done|].
  intros Hu. by destruct (Hafter Hu).
Qed.

(** X3. A cached channel that is not a direct channel, whose fetch is
    rejected, or whose peer is not resolved does not hold the import up:
    the run is the run over the other channels. *)
Theorem import_skips_failing_channel B bot cs1 c cs2 t :
  is_DM c = false ∨ (∃ r, history B c = inl r) ∨ recipient c = None →
  DiscordCRMBot.fetchExistingDMs B (with_cache bot (cs1 ++ c :: cs2)) t
  = DiscordCRMBot.fetchExistingDMs B (with_cache bot (cs1 ++ cs2)) t.
Proof.
  intros Hc. rewrite !fetchExistingDMs_run.
  cbn [with_cache DiscordCRMBot.client channels_cache].
  rewrite !filter_app, filter_cons.
  destruct (decide (is_DM c = true)) as [Hdm|Hdm]; [|done].
  assert (∀ t', DiscordCRMBot.importChannel B (with_cache bot (cs1 ++ c :: cs2)) c t'
                = (Returned tt, t')) as Hskip.
  { intros t'. rewrite importChannel_with_cache, importChannel_run.
    destruct Hc as [Hc|[[r Hc]|Hc]].
    - congruence.
    - by rewrite Hc.
    - destruct (history B c); [done|]. by rewrite import_page_no_peer. }
  rewrite !for_of_app. unfold bind.
  destruct (for_of (filter _ cs1) _ t) as [[[]|e] t']; [|done].
  cbn [for_of]. unfold bind. by rewrite Hskip.
Qed.

Lemma import_skips_failing_channel_witness :
  DiscordCRMBot.fetchExistingDMs (backend response_ok)
    (with_cache bot_a1 ([dm_peer] ++ group :: [dm_bob])) []
  = DiscordCRMBot.fetchExistingDMs (backend response_ok)
      (with_cache bot_a1 ([dm_peer] ++ [dm_bob])) [].
Proof.
  apply import_skips_failing_channel. left. reflexivity.
Defined.

Lemma messageCreate_run bot message t :
  DiscordCRMBot.messageCreate bot message t =
    (Returned tt,
     if is_DM (channel message) && negb (self_authored bot message)
        && negb (existsb (has_remote_id (message_id message)) t)
     then t ++ [live_row bot message]
     else t).
Proof.
  unfold DiscordCRMBot.messageCreate, self_authored.
  destruct (is_DM (channel message)); [|done]. cbn [negb andb].
  destruct (String.eqb (user_id (author message)) (DiscordCRMBot.self_id bot)) eqn:E;
    [done|]. cbn [negb andb].
  unfold try_catch. rewrite recordMessage_run.
  unfold peer_of, self_authored. rewrite E.
  destruct (existsb _ t); [done|]. cbn [negb].
  unfold DiscordCRMBot.imported_row, live_row. by rewrite E.
Qed.

(** X4. The live handler returns normally on every event and stores a
    row exactly when the channel is a direct channel, the author is not
    the session itself and the remote id is not stored yet; the row files
    the event under its author, with direction [received]. *)
Theorem live_handler_run bot message t :
  DiscordCRMBot.messageCreate bot message t =
    (Returned tt,
     if is_DM (channel message) && negb (self_authored bot message)
        && negb (existsb (has_remote_id (message_id message)) t)
     then t ++ [live_row bot message]
     else t).
Proof.
  unfold DiscordCRMBot.messageCreate, self_authored.
  destruct (is_DM (channel message)); [|done]. cbn [negb andb].
  destruct (String.eqb (user_id (author message)) (DiscordCRMBot.self_id bot)) eqn:E;
    [done|]. cbn [negb andb].
  unfold try_catch. rewrite recordMessage_run.
  unfold peer_of, self_authored. rewrite E.
  destruct (existsb _ t); [done|]. cbn [negb].
  unfold DiscordCRMBot.imported_row, live_row. by rewrite E.
Qed.

End Extras_import.

(** ** The registry beyond idempotence *)
Section Extras_registry.
Import BotManager Sample.

(** X5. Adding a session for an account that is not registered and
    then removing it restores the registry and the live sessions; only the
    rows imported at start-up remain. *)
Theorem add_then_remove_round_trip B w a token client :
  bots w !! a = None →
  login B token = inr client →
  let w1 := (addBot B a token w).2 in
  (addBot B a token w).1 = Returned tt
  ∧ removeBot a w1
    = (Returned tt,
       {| bots := bots w; connections := connections w; messages := messages w1 |}).
Proof.
  intros Ha Hlogin w1. subst w1. rewrite addBot_run, Ha, Hlogin.
  cbn [fst snd]. split; [done|].
  rewrite removeBot_run. cbn [bots connections messages].
  rewrite lookup_insert_eq. cbn [DiscordCRMBot.accountId remove_one].
  rewrite String.eqb_refl. by rewrite delete_insert_id.
Qed.

Lemma add_then_remove_round_trip_witness :
  let w1 := (addBot (backend response_ok) "a1" "tok1" world0).2 in
  bots (removeBot "a1" w1).2 = ∅ ∧ connections (removeBot "a1" w1).2 = [].
Proof.
  destruct (add_then_remove_round_trip (backend response_ok) world0 "a1" "tok1"
              (DiscordCRMBot.client bot_a1)) as [_ H].
  - reflexivity.
  - reflexivity.
  - cbv zeta in H |- *. rewrite H. done.
Defined.

(** X6. Removing a registered account returns normally, unregisters it
    and ends its live session; every other account keeps its registration
    and its live sessions, the stored messages are not touched, and the
    registry still agrees with the live sessions. *)
Theorem removeBot_ends_session w a bot :
  registry_consistent w →
  bots w !! a = Some bot →
  let w' := (removeBot a w).2 in
  (removeBot a w).1 = Returned tt
  ∧ bots w' !! a = None
  ∧ live_sessions a w' = 0%nat
  ∧ (∀ b, b ≠ a → bots w' !! b = bots w !! b ∧ live_sessions b w' = live_sessions b w)
  ∧ messages w' = messages w
  ∧ registry_consistent w'.
Proof.
  intros Hc Ha w'.
  assert (registry_consistent w') as Hc' by by apply removeBot_consistent.
  pose proof (Hc a) as Hid. rewrite Ha in Hid. destruct Hid as [Hid _].
  subst w'. rewrite removeBot_run, Ha in Hc' |- *. rewrite Hid in Hc' |- *.
  cbn [fst snd bots messages] in *.
  split; [done|]. split; [apply lookup_delete_eq|].
  split.
  { specialize (Hc' a). cbn [bots] in Hc'. by rewrite lookup_delete_eq in Hc'. }
  split; [|done].
  intros b Hb. split; [by apply lookup_delete_ne|].
  unfold live_sessions. cbn [connections]. by rewrite filter_remove_one_other.
Qed.

Lemma removeBot_ends_session_witness :
  bots (removeBot "a1" world_a1).2 !! "a1" = None
  ∧ live_sessions "a1" (removeBot "a1" world_a1).2 = 0%nat.
Proof.
  destruct (removeBot_ends_session world_a1 "a1" bot_a1) as (_ & H1 & H2 & _).
  - intros a. unfold world_a1. cbn [bots].
    destruct (decide (a = "a1")) as [->|Hne].
    + rewrite lookup_singleton_eq. done.
    + rewrite lookup_singleton_ne by done.
      unfold live_sessions. cbn [connections]. rewrite filter_cons.
      rewrite decide_False by done. done.
  - reflexivity.
  - split; [exact H1 | exact H2].
Defined.

(** X7. [addBot] for one account leaves every other account's
    registration and live sessions alone, and it only appends to the
    stored messages: rows of the new session's account, with unique remote
    ids staying unique. *)
Theorem addBot_frame B w a token :
  let w' := (addBot B a token w).2 in
  (∀ b, b ≠ a → bots w' !! b = bots w !! b ∧ live_sessions b w' = live_sessions b w)
  ∧ ∃ new, messages w' = messages w ++ new
           ∧ Forall (λ r, account_id r = a) new
           ∧ (unique_remote_ids (messages w) → unique_remote_ids (messages w')).
Proof.
  intros w'. subst w'. rewrite addBot_run.
  assert (∃ new : table, messages w = messages w ++ new
                 ∧ Forall (λ r, account_id r = a) new
                 ∧ (unique_remote_ids (messages w) → unique_remote_ids (messages w)))
    as Hsame.
  { exists []. by rewrite app_nil_r. }
  destruct (bots w !! a); [done|].
  destruct (login B token) as [r|client]; [done|].
  cbn [snd bots messages]. split.
  - intros b Hb. split; [by apply lookup_insert_ne|].
    rewrite live_sessions_cons. by rewrite decide_False.
  - destruct (import_only_appends_rows B
                {| DiscordCRMBot.token := token; DiscordCRMBot.accountId := a;
                   DiscordCRMBot.client := client |} (messages w))
      as (new & Hrun & Hall & Hu).
    exists new. rewrite Hrun. cbn [snd]. split; [done|]. split; [|done].
    eapply Forall_impl; [exact Hall|]. by intros r [? _].
Qed.

End Extras_registry.

Section Extras_send.
Import BotManager Sample.

(** What the session's [sendMessage] does to the table. *)
Lemma bot_sendMessage_effect B bot channelId content t :
  match (DiscordCRMBot.sendMessage B bot channelId content t).1 with
  | Threw _ => (DiscordCRMBot.sendMessage B bot channelId content t).2 = t
  | Returned res =>
      (DiscordCRMBot.sendMessage B bot channelId content t).2 = t
      ∨ ∃ r, (DiscordCRMBot.sendMessage B bot channelId content t).2 = t ++ [r]
             ∧ account_id r = DiscordCRMBot.accountId bot
             ∧ dir r = sent
             ∧ discord_message_id r = Some (DiscordCRMBot.messageId res)
             ∧ Supabase.content r = DiscordCRMBot.result_content res
  end.
Proof.
  rewrite bot_sendMessage_run.
  destruct (post_message B _ channelId content) as [r|response]; [done|].
  destruct (negb (ok response)); [done|].
  destruct (message_data response) as [d|]; [|done].
  cbn [fst snd]. rewrite recordSentMessage_run.
  destruct (cache_get _ channelId) as [ch|]; [|by left].
  destruct (negb (is_DM ch)); [by left|].
  destruct (recipient ch) as [peer|]; [|by left].
  destruct (existsb _ t); [by left|].
  right. eexists. split; [done|]. done.
Qed.

(** X8. The registry's [sendMessage] never registers, unregisters,
    starts or stops a session. A send that fails leaves the whole state as
    it was; a send that returns stores nothing or appends one row, which
    has direction [sent] and carries the returned message id and content. *)
Theorem send_effect B a userId content w :
  let w' := (sendMessage B a userId content w).2 in
  bots w' = bots w
  ∧ connections w' = connections w
  ∧ match (sendMessage B a userId content w).1 with
    | Threw _ => w' = w
    | Returned res =>
        messages w' = messages w
        ∨ ∃ r, messages w' = messages w ++ [r]
               ∧ dir r = sent
               ∧ discord_message_id r = Some (DiscordCRMBot.messageId res)
               ∧ Supabase.content r = DiscordCRMBot.result_content res
    end.
Proof.
  intros w'. subst w'. rewrite sendMessage_run.
  destruct (bots w !! a) as [bot|]; [|done].
  destruct (users_fetch B _ userId) as [r|user]; [done|].
  destruct (createDM B _ user) as [r|dm]; [done|].
  cbn [fst snd set_messages bots connections messages].
  split; [done|]. split; [done|].
  pose proof (bot_sendMessage_effect B bot (channel_id dm) content (messages w)) as H.
  destruct (DiscordCRMBot.sendMessage B bot (channel_id dm) content (messages w))
    as [[res|e] t']; cbn [fst snd] in H |- *.
  - destruct H as [->|(r & -> & _ & ? & ? & ?)]; [by left|].
    right. by exists r.
  - subst t'. by destruct w.
Qed.

End Extras_send.

(** ** Start-up, status and shutdown *)
Section Extras_service.
Import BotManager Service Sample.

Lemma on_insert_run B a token w :
  try_catch (addBot B a token) (λ _, ret tt) w = (Returned tt, (addBot B a token w).2).
Proof.
  unfold try_catch. by destruct (addBot B a token w) as [[[]|e] w'].
Qed.

Lemma addBot_registered B a token w b :
  is_Some (bots (addBot B a token w).2 !! b)
  ↔ is_Some (bots w !! b) ∨ (b = a ∧ ∃ client, login B token = inr client).
Proof.
  rewrite addBot_run.
  destruct (bots w !! a) as [bot|] eqn:Ea.
  - cbn [snd]. split; [by left|]. intros [?|[-> _]]; [done|]. by rewrite Ea.
  - destruct (login B token) as [r|client] eqn:El; cbn [snd bots].
    + split; [by left|]. intros [?|[_ [c [=]]]]. done.
    + rewrite lookup_insert_is_Some'. split.
      * intros [<-|?]; [right|by left]. split; [done|]. by exists client.
      * intros [?|[-> _]]; [by right|by left].
Qed.

Lemma initialize_loop B (accounts : list Account) w :
  registry_consistent w →
  let r := for_of accounts
             (λ account, try_catch
                (addBot B (account_row_id account) (account_token account))
                (λ _, ret tt)) w in
  r.1 = Returned tt
  ∧ registry_consistent r.2
  ∧ ∀ a, is_Some (bots r.2 !! a)
         ↔ is_Some (bots w !! a)
           ∨ ∃ account client, account ∈ accounts ∧ account_row_id account = a
                               ∧ login B (account_token account) = inr client.
Proof.
  revert w. induction accounts as [|x accounts IH]; intros w Hc.
  { cbn. split; [done|]. split; [done|]. intros a. split; [by left|].
    intros [?|(acc & c & Hin & _)]; [done|]. by apply not_elem_of_nil in Hin. }
  cbn [for_of]. unfold bind. rewrite on_insert_run.
  destruct (IH (addBot B (account_row_id x) (account_token x) w).2) as (H1 & H2 & H3).
  { by apply addBot_consistent. }
  cbv zeta in H1, H2, H3 |- *.
  split; [done|]. split; [done|].
  intros a. rewrite H3, addBot_registered. split.
  - intros [[?|[-> [c Hc']]]|(acc & c & Hin & Hid & Hl)].
    + by left.
    + right. exists x, c. split; [apply list_elem_of_here|done].
    + right. exists acc, c. split; [by apply list_elem_of_further|done].
  - intros [?|(acc & c & Hin & Hid & Hl)]; [by left; left|].
    apply elem_of_cons in Hin as [->|Hin].
    + left. right. split; [done|]. by exists c.
    + right. by exists acc, c.
Qed.

(** X9. Start-up isolates failures. [initializeFromDatabase] always
    returns normally. With the accounts at hand, an account is registered
    afterwards exactly when it was registered before or one of its rows
    logs in, whatever happens to the other rows, and the registry still
    agrees with the live sessions. When the query of the accounts fails,
    nothing changes. *)
Theorem initialize_isolates_failures B accounts w :
  registry_consistent w →
  let r := initializeFromDatabase B (inr accounts) w in
  r.1 = Returned tt
  ∧ registry_consistent r.2
  ∧ (∀ a, is_Some (bots r.2 !! a)
          ↔ is_Some (bots w !! a)
            ∨ ∃ account client, account ∈ accounts ∧ account_row_id account = a
                                ∧ login B (account_token account) = inr client)
  ∧ ∀ error, initializeFromDatabase B (inl error) w = (Returned tt, w).
Proof.
  intros Hc r.
  destruct (initialize_loop B accounts w Hc) as (H1 & H2 & H3).
  cbv zeta in H1, H2, H3.
  assert (r = for_of accounts
                (λ account, try_catch
                   (addBot B (account_row_id account) (account_token account))
                   (λ _, ret tt)) w) as ->.
  { subst r. unfold initializeFromDatabase, try_catch, bind. cbn [ret].
    destruct (for_of accounts _ w) as [[[]|e] w'] eqn:E; [done|].
    discriminate H1. }
  done.
Qed.

Lemma initialize_isolates_failures_witness :
  let r := initializeFromDatabase (backend response_ok)
             (inr [ {| account_row_id := "a4"; account_token := "bad-token";
                       account_username := "mallory" |};
                    {| account_row_id := "a1"; account_token := "tok1";
                       account_username := "alice" |} ]) world0 in
  r.1 = Returned tt
  ∧ is_Some (bots r.2 !! "a1")
  ∧ bots r.2 !! "a4" = None.
Proof.
  destruct (initialize_isolates_failures (backend response_ok)
              [ {| account_row_id := "a4"; account_token := "bad-token";
                   account_username := "mallory" |};
                {| account_row_id := "a1"; account_token := "tok1";
                   account_username := "alice" |} ] world0)
    as (H1 & _ & H3 & _).
  - intros a. cbn. done.
  - split; [exact H1|]. split.
    + apply H3. right.
      exists {| account_row_id := "a1"; account_token := "tok1";
                account_username := "alice" |}, (DiscordCRMBot.client bot_a1).
      split; [|split; reflexivity].
      apply list_elem_of_further, list_elem_of_here.
    + reflexivity.
Defined.

End Extras_service.

Section Extras_status.
Import BotManager Service Sample.

Lemma count_positive_elem (a : string) (l : list string) :
  a ∈ l ↔ (0 < length (filter (λ x, x = a) l))%nat.
Proof.
  induction l as [|y l IH].
  { split; [by intros ?%not_elem_of_nil | cbn; lia]. }
  rewrite filter_cons, elem_of_cons.
  destruct (decide (y = a)) as [->|Hne]; cbn [length].
  - split; [lia | by left].
  - rewrite <- IH. split; [intros [?|?]; [congruence|done] | by right].
Qed.

Lemma NoDup_of_counts (l : list string) :
  (∀ a, length (filter (λ x, x = a) l) ≤ 1)%nat → NoDup l.
Proof.
  induction l as [|y l IH]; intros Hcount; [constructor|].
  constructor.
  - intros Hy%count_positive_elem. specialize (Hcount y).
    rewrite filter_cons, decide_True in Hcount by done. cbn [length] in Hcount. lia.
  - apply IH. intros a. specialize (Hcount a). rewrite filter_cons in Hcount.
    destruct (decide (y = a)); cbn [length] in Hcount; lia.
Qed.

Lemma keys_registered (m : gmap string DiscordCRMBot.t) a :
  a ∈ (map_to_list m).*1 ↔ is_Some (m !! a).
Proof.
  rewrite list_elem_of_fmap. split.
  - intros ([k v] & -> & Hkv). apply elem_of_map_to_list in Hkv. by exists v.
  - intros [v Hv]. exists (a, v). split; [done|]. by apply elem_of_map_to_list.
Qed.

Lemma consistent_connections w :
  registry_consistent w →
  NoDup (connections w) ∧ ∀ a, a ∈ connections w ↔ is_Some (bots w !! a).
Proof.
  intros Hc. split.
  - apply NoDup_of_counts. intros a. specialize (Hc a). unfold live_sessions in Hc.
    destruct (bots w !! a); [destruct Hc as [_ ->]|rewrite Hc]; lia.
  - intros a. rewrite count_positive_elem. specialize (Hc a).
    unfold live_sessions in Hc. destruct (bots w !! a) as [bot|].
    + destruct Hc as [_ ->]. split; [by eexists|lia].
    + rewrite Hc. split; [lia|]. by intros [? [=]].
Qed.

(** X10. On a registry that agrees with the live sessions, the status
    report counts the live sessions: [totalBots] is the number of listed
    accounts and the number of live sessions, and an account is listed
    exactly when it is registered. *)
Theorem status_counts_live_sessions w :
  registry_consistent w →
  totalBots (getBotStatus w) = length (activeBots (getBotStatus w))
  ∧ totalBots (getBotStatus w) = length (connections w)
  ∧ NoDup (activeBots (getBotStatus w))
  ∧ ∀ a, a ∈ activeBots (getBotStatus w) ↔ is_Some (bots w !! a).
Proof.
  intros Hc. cbn [getBotStatus totalBots activeBots].
  assert (size (bots w) = length (map_to_list (bots w)).*1) as Hsize.
  { by rewrite length_fmap, length_map_to_list. }
  split; [done|].
  destruct (consistent_connections w Hc) as [Hnd Hin].
  split.
  - rewrite Hsize. apply Permutation_length, NoDup_Permutation.
    + apply NoDup_fst_map_to_list.
    + done.
    + intros a. by rewrite keys_registered, Hin.
  - split; [apply NoDup_fst_map_to_list|]. intros a. apply keys_registered.
Qed.

Lemma status_counts_live_sessions_witness :
  totalBots (getBotStatus world_a1) = 1%nat
  ∧ "a1" ∈ activeBots (getBotStatus world_a1).
Proof.
  destruct (status_counts_live_sessions world_a1) as (_ & H2 & _ & H4).
  - intros a. unfold world_a1. cbn [bots].
    destruct (decide (a = "a1")) as [->|Hne].
    + rewrite lookup_singleton_eq. done.
    + rewrite lookup_singleton_ne by done.
      unfold live_sessions. cbn [connections]. rewrite filter_cons.
      rewrite decide_False by done. done.
  - split; [by rewrite H2|]. apply H4. by eexists.
Defined.

Lemma remove_all ks w :
  (for_of ks removeBot w).1 = Returned tt
  ∧ messages (for_of ks removeBot w).2 = messages w
  ∧ (∀ k, bots (for_of ks removeBot w).2 !! k
          = if decide (k ∈ ks) then None else bots w !! k)
  ∧ (registry_consistent w → registry_consistent (for_of ks removeBot w).2).
Proof.
  revert w. induction ks as [|x ks IH]; intros w.
  { cbn. split; [done|]. split; [done|]. split; [|done].
    intros k. by rewrite decide_False by apply not_elem_of_nil. }
  cbn [for_of]. unfold bind.
  pose proof (removeBot_consistent x w) as Hcons.
  assert ((removeBot x w).1 = Returned tt
          ∧ messages (removeBot x w).2 = messages w
          ∧ ∀ k, bots (removeBot x w).2 !! k
                 = if decide (k = x) then None else bots w !! k) as (Hr & Hm & Hb).
  { rewrite removeBot_run. destruct (bots w !! x) as [bot|] eqn:Ex; cbn [fst snd bots messages].
    - split; [done|]. split; [done|]. intros k.
      destruct (decide (k = x)) as [->|Hne];
        [apply lookup_delete_eq | by apply lookup_delete_ne].
    - split; [done|]. split; [done|]. intros k.
      by destruct (decide (k = x)) as [->|Hne]. }
  destruct (removeBot x w) as [[[]|e] w1]; [|discriminate Hr].
  cbn [snd] in Hm, Hb, Hcons.
  destruct (IH w1) as (H1 & H2 & H3 & H4).
  split; [done|]. split; [by rewrite H2|]. split; [|by intros ?; apply H4, Hcons].
  intros k. rewrite H3, Hb.
  destruct (decide (k ∈ ks)) as [Hin|Hin].
  - rewrite decide_True; [done|]. by apply list_elem_of_further.
  - destruct (decide (k = x)) as [->|Hne].
    + rewrite decide_True; [done|]. apply list_elem_of_here.
    + rewrite decide_False; [done|]. by intros [?|?]%elem_of_cons.
Qed.

(** X11. Shutdown removes every session: on a registry that agrees
    with the live sessions, the handler of the interrupt leaves no account
    registered and no session live, and does not touch the stored
    messages. *)
Theorem shutdown_removes_all w :
  registry_consistent w →
  SIGINT w = (Returned tt, {| bots := ∅; connections := []; messages := messages w |}).
Proof.
  intros Hc. unfold SIGINT, bind at 1, get.
  destruct (remove_all (map_to_list (bots w)).*1 w) as (H1 & H2 & H3 & H4).
  specialize (H4 Hc).
  destruct (for_of _ removeBot w) as [[[]|e] w'] eqn:E; [|discriminate H1].
  cbn [snd] in H2, H3, H4. f_equal.
  assert (bots w' = ∅) as Hempty.
  { apply map_empty. intros k. rewrite H3.
    destruct (decide (k ∈ (map_to_list (bots w)).*1)) as [Hin|Hin]; [done|].
    rewrite keys_registered in Hin. by apply eq_None_not_Some. }
  assert (connections w' = []) as Hnone.
  { destruct (consistent_connections w' H4) as [_ Hin].
    destruct (connections w') as [|x l]; [done|].
    specialize (Hin x). rewrite Hempty, lookup_empty in Hin.
    destruct Hin as [Hin _]. destruct (Hin (list_elem_of_here _ _)) as [? [=]]. }
  destruct w' as [b c m]. cbn in *. by subst.
Qed.

Lemma shutdown_removes_all_witness :
  SIGINT world_a1 = (Returned tt, world0).
Proof.
  apply (shutdown_removes_all world_a1).
  - intros a. unfold world_a1. cbn [bots].
    destruct (decide (a = "a1")) as [->|Hne].
    + rewrite lookup_singleton_eq. done.
    + rewrite lookup_singleton_ne by done.
      unfold live_sessions. cbn [connections]. rewrite filter_cons.
      rewrite decide_False by done. done.
Defined.

End Extras_status.

(** ** The dashboard's route in front of the service *)
Section Extras_proxy.
Import BotManager Proxy Sample.

(** X12. The dashboard's route and the bot service agree on what a
    complete request is, and the route hands the service's answer on. A
    body that lacks a field is answered 400 without the service being
    called. For a complete body the state is the one the registry's
    [sendMessage] leaves; a send that returns is answered 200 with its
    result, a send that throws is answered 500 with the error's message,
    or with "Bot service error: 500" when that message is empty. *)
Theorem proxy_hands_on_the_answer B req w :
  (missing (req_accountId req) || missing (req_userId req) || missing (req_content req)
   = true →
   ∀ W (service : SendRequest → W → (rejection + Reply) * W) (s : W),
     POST service (inr req) s
     = ({| reply_status := 400%N;
           reply_body := ErrorReply "Missing required fields: accountId, userId, content" |},
        s))
  ∧ (∀ a u c,
       req_accountId req = Some a → req_userId req = Some u → req_content req = Some c →
       truthy a = true → truthy u = true → truthy c = true →
       POST (bot_service B) (inr req) w =
         match sendMessage B a u c w with
         | (Returned result, w') =>
             ({| reply_status := 200%N; reply_body := ResultReply result |}, w')
         | (Threw error, w') =>
             ({| reply_status := 500%N;
                 reply_body :=
                   ErrorReply (if truthy (message_of error) then message_of error
                               else "Bot service error: 500") |}, w')
         end).
Proof.
  split.
  - intros Hm W service s. unfold POST. by rewrite Hm.
  - intros a u c Ha Hu Hc Ta Tu Tc.
    unfold POST, bot_service, post_send_message, missing.
    rewrite Ha, Hu, Hc, Ta, Tu, Tc.
    cbn [negb orb req_accountId req_userId req_content].
    rewrite Ta, Tu, Tc. cbn [negb orb].
    destruct (sendMessage B a u c w) as [[result|error] w']; [done|].
    cbn [fst snd reply_status reply_body error_field or_else].
    by destruct (truthy (message_of error)).
Qed.

Lemma proxy_hands_on_the_answer_witness :
  POST (bot_service (backend response_429)) (inr (request "a1" "p1" "hello")) world_a1
  = ({| reply_status := 500%N;
        reply_body := ErrorReply "Discord API error 429: You are being rate limited." |},
     world_a1)
  ∧ POST (bot_service (backend response_ok)) (inr (request "a1" "" "hello")) world_a1
    = ({| reply_status := 400%N;
          reply_body := ErrorReply "Missing required fields: accountId, userId, content" |},
       world_a1).
Proof.
  destruct (proxy_hands_on_the_answer (backend response_429)
              (request "a1" "p1" "hello") world_a1) as [_ H1].
  destruct (proxy_hands_on_the_answer (backend response_ok)
              (request "a1" "" "hello") world_a1) as [H2 _].
  split.
  - rewrite (H1 "a1" "p1" "hello"); reflexivity.
  - apply H2. reflexivity.
Defined.

End Extras_proxy.

(** ** The inbox: one conversation per peer, newest first *)
Section Extras_inbox.
Import Dashboard.

Lemma map_has_keys userId (m : list (string * Conversation)) :
  map_has userId m = true ↔ userId ∈ m.*1.
Proof.
  unfold map_has. rewrite existsb_exists, list_elem_of_fmap. split.
  - intros ([k c] & Hin & Heq). apply String.eqb_eq in Heq. cbn in Heq. subst k.
    exists (userId, c). split; [done|]. by apply list_elem_of_In.
  - intros ([k c] & -> & Hin). exists (k, c). split; [by apply list_elem_of_In|].
    apply String.eqb_refl.
Qed.

(** The [forEach] of [loadConversations] files, in order, the first row
    of every peer it has not seen. *)
Lemma file_messages_run data (m : list (string * Conversation)) seen :
  (∀ k, k ∈ seen ↔ k ∈ m.*1) →
  foldl file_message m data
  = m ++ ((λ r, (discord_user_id r, conversation_of r)) <$> first_per_peer seen data).
Proof.
  revert m seen. induction data as [|r data IH]; intros m seen Hseen.
  { cbn. by rewrite app_nil_r. }
  cbn [foldl first_per_peer]. unfold file_message at 2.
  destruct (map_has (discord_user_id r) m) eqn:Eh.
  - apply map_has_keys, Hseen in Eh. rewrite bool_decide_eq_true_2 by done.
    by apply IH.
  - rewrite bool_decide_eq_false_2.
    + rewrite (IH _ (discord_user_id r :: seen)).
      * rewrite fmap_cons, <- app_assoc. done.
      * intros k. rewrite fmap_app, elem_of_cons, elem_of_app, Hseen. cbn.
        rewrite list_elem_of_singleton. tauto.
    + intros Hin. apply Hseen, map_has_keys in Hin. congruence.
Qed.

Lemma first_per_peer_elem seen data r :
  r ∈ first_per_peer seen data →
  r ∈ data ∧ discord_user_id r ∉ seen.
Proof.
  revert seen. induction data as [|x data IH]; intros seen Hr.
  { by apply not_elem_of_nil in Hr. }
  cbn [first_per_peer] in Hr.
  destruct (bool_decide (discord_user_id x ∈ seen)) eqn:E.
  - destruct (IH _ Hr). split; [by apply list_elem_of_further|done].
  - apply bool_decide_eq_false in E.
    apply elem_of_cons in Hr as [->|Hr]; [split; [apply list_elem_of_here|done]|].
    destruct (IH _ Hr) as [? Hn]. split; [by apply list_elem_of_further|].
    intros ?. apply Hn. by apply list_elem_of_further.
Qed.

Lemma first_per_peer_NoDup seen data :
  NoDup (discord_user_id <$> first_per_peer seen data).
Proof.
  revert seen. induction data as [|x data IH]; intros seen; [constructor|].
  cbn [first_per_peer]. destruct (bool_decide _); [apply IH|].
  rewrite fmap_cons. constructor; [|apply IH].
  intros (r & Heq & Hr)%list_elem_of_fmap.
  apply first_per_peer_elem in Hr as [_ Hn]. apply Hn. rewrite <- Heq.
  apply list_elem_of_here.
Qed.

Lemma first_per_peer_covers seen data u :
  u ∈ discord_user_id <$> data → u ∉ seen →
  u ∈ discord_user_id <$> first_per_peer seen data.
Proof.
  revert seen. induction data as [|x data IH]; intros seen Hu Hn.
  { by apply not_elem_of_nil in Hu. }
  cbn [first_per_peer]. rewrite fmap_cons in Hu.
  destruct (bool_decide (discord_user_id x ∈ seen)) eqn:E.
  - apply bool_decide_eq_true in E.
    apply elem_of_cons in Hu as [->|Hu]; [done|]. by apply IH.
  - rewrite fmap_cons. destruct (decide (u = discord_user_id x)) as [->|Hne].
    + apply list_elem_of_here.
    + apply list_elem_of_further. apply elem_of_cons in Hu as [?|Hu]; [done|].
      apply IH; [done|]. by intros [?|?]%elem_of_cons.
Qed.

(** On rows delivered newest first, the row kept for a peer is at least
    as recent as every row of that peer. *)
Lemma first_per_peer_latest seen data r r' :
  rows_newest_first data →
  r ∈ first_per_peer seen data → r' ∈ data →
  discord_user_id r' = discord_user_id r →
  (timestamp r' ≤ timestamp r)%Z.
Proof.
  revert seen. induction data as [|x data IH]; intros seen Hs Hr Hr' Heq.
  { by apply not_elem_of_nil in Hr. }
  apply StronglySorted_cons in Hs as [Hall Hs]. rewrite Forall_forall in Hall.
  cbn [first_per_peer] in Hr.
  destruct (bool_decide (discord_user_id x ∈ seen)) eqn:E.
  - apply bool_decide_eq_true in E.
    pose proof (first_per_peer_elem _ _ _ Hr) as [_ Hn].
    apply elem_of_cons in Hr' as [->|Hr']; [congruence|]. by eapply IH.
  - apply elem_of_cons in Hr as [->|Hr].
    + apply elem_of_cons in Hr' as [->|Hr']; [lia|]. by apply Hall.
    + pose proof (first_per_peer_elem _ _ _ Hr) as [_ Hn].
      apply elem_of_cons in Hr' as [->|Hr']; [|by eapply IH].
      exfalso. apply Hn. rewrite <- Heq. apply list_elem_of_here.
Qed.

Lemma first_per_peer_sorted seen data :
  rows_newest_first data → rows_newest_first (first_per_peer seen data).
Proof.
  revert seen. induction data as [|x data IH]; intros seen Hs; [constructor|].
  apply StronglySorted_cons in Hs as [Hall Hs]. rewrite Forall_forall in Hall.
  cbn [first_per_peer]. destruct (bool_decide _); [by apply IH|].
  constructor; [by apply IH|].
  apply Forall_forall. intros r Hr. apply first_per_peer_elem in Hr as [Hr _].
  by apply Hall.
Qed.

Lemma sort_insert_perm x l : sort_insert x l ≡ₚ x :: l.
Proof.
  induction l as [|y l IH]; [done|]. cbn [sort_insert].
  destruct (last_message_time y <=? last_message_time x)%Z; [done|].
  rewrite IH. apply Permutation_swap.
Qed.

Lemma sort_newest_first_perm l : sort_newest_first l ≡ₚ l.
Proof.
  induction l as [|x l IH]; [done|].
  cbn [sort_newest_first foldr]. fold (sort_newest_first l).
  by rewrite sort_insert_perm, IH.
Qed.

Lemma sort_insert_sorted x l :
  conversations_newest_first l → conversations_newest_first (sort_insert x l).
Proof.
  unfold conversations_newest_first.
  induction 1 as [|y l Hs IH Hall]; [repeat constructor|].
  cbn [sort_insert].
  destruct (Z.leb_spec (last_message_time y) (last_message_time x)) as [Hle|Hgt].
  - constructor; [by constructor|]. constructor; [done|].
    eapply Forall_impl; [exact Hall|]. intros z Hz. cbn in Hz. lia.
  - constructor; [done|].
    rewrite sort_insert_perm. constructor; [lia|done].
Qed.

Lemma sort_newest_first_sorted l : conversations_newest_first (sort_newest_first l).
Proof.
  induction l as [|x l IH]; [constructor|].
  cbn [sort_newest_first foldr]. by apply sort_insert_sorted.
Qed.

Lemma sort_newest_first_id l :
  conversations_newest_first l → sort_newest_first l = l.
Proof.
  induction 1 as [|x l Hs IH Hall]; [done|].
  cbn [sort_newest_first foldr]. fold (sort_newest_first l). rewrite IH.
  destruct l as [|y l]; [done|]. cbn [sort_insert].
  apply Forall_cons in Hall as [Hy _].
  by rewrite (proj2 (Z.leb_le _ _) Hy).
Qed.

Lemma filed_values data :
  (foldl file_message [] data).*2 = conversation_of <$> first_per_peer [] data.
Proof.
  rewrite (file_messages_run data [] []) by done.
  cbn [app]. rewrite <- list_fmap_compose. done.
Qed.

End Extras_inbox.

Section Extras_dashboard.
Import Dashboard Sample.

(** X13. Whatever rows the inbox query delivers, the inbox lists every
    peer that has a row exactly once, newest conversation first. *)
Theorem inbox_one_conversation_per_peer data :
  NoDup (conv_user_id <$> loadConversations data)
  ∧ (∀ u, u ∈ conv_user_id <$> loadConversations data ↔ u ∈ discord_user_id <$> data)
  ∧ conversations_newest_first (loadConversations data).
Proof.
  unfold loadConversations. rewrite filed_values.
  assert (conv_user_id <$> sort_newest_first (conversation_of <$> first_per_peer [] data)
          ≡ₚ discord_user_id <$> first_per_peer [] data) as Hperm.
  { rewrite sort_newest_first_perm, <- list_fmap_compose. done. }
  split; [rewrite Hperm; apply first_per_peer_NoDup|].
  split; [|apply sort_newest_first_sorted].
  intros u. rewrite Hperm. split.
  - intros (r & -> & Hr)%list_elem_of_fmap.
    apply first_per_peer_elem in Hr as [Hr _]. by apply list_elem_of_fmap_2.
  - intros Hu. apply first_per_peer_covers; [done|apply not_elem_of_nil].
Qed.

(** X14. When the query delivers the rows newest first, each
    conversation of the inbox shows a row of its peer that is at least as
    recent as every other row of that peer, and the final sort leaves the
    order of first appearance as it is. *)
Theorem inbox_shows_latest_message data :
  rows_newest_first data →
  loadConversations data = conversation_of <$> first_per_peer [] data
  ∧ ∀ c, c ∈ loadConversations data →
      ∃ r, r ∈ data ∧ c = conversation_of r
           ∧ ∀ r', r' ∈ data → discord_user_id r' = conv_user_id c →
                   (timestamp r' ≤ last_message_time c)%Z.
Proof.
  intros Hs.
  assert (loadConversations data = conversation_of <$> first_per_peer [] data) as Heq.
  { unfold loadConversations. rewrite filed_values. apply sort_newest_first_id.
    unfold conversations_newest_first.
    eapply StronglySorted_fmap; [|by apply (first_per_peer_sorted [])].
    intros r1 r2 H. exact H. }
  split; [done|]. rewrite Heq.
  intros c (r & -> & Hr)%list_elem_of_fmap.
  exists r. split; [by apply first_per_peer_elem in Hr as [? _]|]. split; [done|].
  intros r' Hr' Hpeer. cbn [conversation_of last_message_time conv_user_id] in *.
  by eapply first_per_peer_latest.
Qed.

Lemma inbox_shows_latest_message_witness :
  let data := (DiscordCRMBot.fetchExistingDMs (backend response_ok) bot_a1 []).2 in
  (last_message <$> loadConversations (reverse data)) = ["bye"].
Proof.
  intros data.
  destruct (inbox_shows_latest_message (reverse data)) as [Heq _].
  - subst data. repeat constructor; cbn; lia.
  - rewrite Heq. reflexivity.
Defined.

(** X15. The conversation view keeps the ids of the shown messages
    distinct under both of its updates; an inserted row of another peer is
    ignored, and a row delivered again changes nothing. *)
Theorem view_ids_stay_distinct userId prev m :
  NoDup (view_id <$> prev) →
  NoDup (view_id <$> on_insert userId prev m)
  ∧ NoDup (view_id <$> show_optimistic prev m)
  ∧ on_insert userId (on_insert userId prev m) m = on_insert userId prev m
  ∧ (discord_user_id (view_row m) ≠ userId → on_insert userId prev m = prev).
Proof.
  intros Hnd.
  assert (∀ l, shown (view_id m) l = true ↔ view_id m ∈ view_id <$> l) as Hshown.
  { intros l. unfold shown. rewrite existsb_exists, list_elem_of_fmap. split.
    - intros (x & Hin & Heq%String.eqb_eq). exists x. split; [done|].
      by apply list_elem_of_In.
    - intros (x & Heq & Hin). exists x. split; [by apply list_elem_of_In|].
      by apply String.eqb_eq. }
  assert (NoDup (view_id <$> (if shown (view_id m) prev then prev else prev ++ [m])))
    as Hstep.
  { destruct (shown (view_id m) prev) eqn:E; [done|].
    rewrite fmap_app. apply NoDup_app. split; [done|].
    split; [|apply NoDup_singleton].
    intros x Hx ->%list_elem_of_singleton. apply Hshown in Hx. congruence. }
  unfold on_insert, show_optimistic.
  destruct (String.eqb_spec (discord_user_id (view_row m)) userId) as [Heq|Hne].
  - split; [done|]. split; [done|]. split; [|done].
    destruct (shown (view_id m) prev) eqn:E; [by rewrite E|].
    assert (shown (view_id m) (prev ++ [m]) = true) as ->; [|done].
    apply Hshown. rewrite fmap_app. apply elem_of_app. right. apply list_elem_of_here.
  - split; [done|]. split; [done|]. done.
Qed.

Lemma view_ids_stay_distinct_witness :
  let m := {| view_id := "row-1";
              view_row := DiscordCRMBot.imported_row bot_a1 peer m1 |} in
  on_insert "p1" (on_insert "p1" [] m) m = [m]
  ∧ on_insert "p2" [] m = [].
Proof.
  intros m.
  destruct (view_ids_stay_distinct "p1" [] m NoDup_nil_2) as (_ & _ & H3 & _).
  destruct (view_ids_stay_distinct "p2" [] m NoDup_nil_2) as (_ & _ & _ & H4).
  split; [rewrite H3; reflexivity|]. apply H4. by cbn.
Defined.

(** X16. The provisional entry of a send carries the backend's message
    id, while the stored row arrives with the id of the storage: when the
    two ids differ and neither is shown yet, the view shows the sent
    message twice, the provisional entry followed by the stored row. *)
Theorem sent_message_shown_twice accountId userId userInfo id content now created
    prev stored :
  truthy id = true →
  shown id prev = false →
  shown (view_id stored) prev = false →
  view_id stored ≠ id →
  discord_user_id (view_row stored) = userId →
  on_insert userId
    (show_optimistic prev
       (optimisticMessage accountId userId userInfo (Some id) content now created))
    stored
  = prev ++ [optimisticMessage accountId userId userInfo (Some id) content now created;
             stored].
Proof.
  intros Tid Hid Hstored Hne Hpeer.
  unfold show_optimistic, on_insert.
  cbn [optimisticMessage view_id or_else]. rewrite Tid, Hid.
  rewrite Hpeer, String.eqb_refl.
  unfold shown in *. rewrite existsb_app, Hstored. cbn [existsb view_id orb].
  cbn [optimisticMessage view_id or_else]. rewrite Tid.
  destruct (String.eqb_spec id (view_id stored)) as [Heq|_]; [congruence|].
  cbn [orb]. by rewrite <- app_assoc.
Qed.

Lemma sent_message_shown_twice_witness :
  let stored := {| view_id := "row-2";
                   view_row := DiscordCRMBot.imported_row bot_a1 peer m2 |} in
  length (on_insert "p1"
            (show_optimistic []
               (optimisticMessage "a1" "p1" None (Some "m2") "hello" 2000 2001))
            stored) = 2%nat.
Proof.
  intros stored.
  rewrite (sent_message_shown_twice "a1" "p1" None "m2" "hello" 2000 2001 [] stored);
    try reflexivity.
  by cbn.
Defined.

End Extras_dashboard.


(** ** Handlers that overlap at an [await] *)
Section Suspended.
Import BotManager.
Variable B : Backend.

(** A call that is not interrupted is the call suspended and resumed at
    once. *)
Lemma addBot_split a token w :
  addBot B a token w =
    if addBot_returns_early a w then (Returned tt, w)
    else addBot_from_start B a token w.
Proof.
  unfold addBot, addBot_returns_early, addBot_from_start, bind at 1, get.
  destruct (bots w !! a) as [bot|] eqn:Ea.
  - rewrite bool_decide_eq_true_2 by by eexists. done.
  - rewrite bool_decide_eq_false_2; [done|]. by intros [? [=]].
Qed.

Lemma addBot_from_start_run a token w :
  addBot_from_start B a token w =
    match login B token with
    | inl r => (Threw (Native (rej_name r) (rej_message r)), w)
    | inr client =>
        let bot := {| DiscordCRMBot.token := token;
                      DiscordCRMBot.accountId := a;
                      DiscordCRMBot.client := client |} in
        (Returned tt,
         {| bots := <[a := bot]> (bots w);
            connections := a :: connections w;
            messages := (DiscordCRMBot.fetchExistingDMs B bot (messages w)).2 |})
    end.
Proof.
  unfold addBot_from_start, bind. rewrite start_run.
  by destruct (login B token).
Qed.

(** Registration under the session's own id is kept by every operation
    on the registry, resumed calls included. *)
Lemma own_id_addBot_from_start a token w :
  registered_under_own_id w →
  registered_under_own_id (addBot_from_start B a token w).2.
Proof.
  intros Hw. rewrite addBot_from_start_run.
  destruct (login B token) as [r|client]; [done|].
  intros b bot. cbn [snd bots]. destruct (decide (a = b)) as [<-|Hne].
  - rewrite lookup_insert_eq. by intros [= <-].
  - rewrite lookup_insert_ne by done. apply Hw.
Qed.

Lemma own_id_addBot a token w :
  registered_under_own_id w → registered_under_own_id (addBot B a token w).2.
Proof.
  intros Hw. rewrite addBot_split.
  destruct (addBot_returns_early a w); [done|]. by apply own_id_addBot_from_start.
Qed.

Lemma own_id_removeBot a w :
  registered_under_own_id w → registered_under_own_id (removeBot a w).2.
Proof.
  intros Hw. rewrite removeBot_run. destruct (bots w !! a) as [bot0|]; [|done].
  intros b bot. cbn [snd bots]. destruct (decide (a = b)) as [<-|Hne].
  - by rewrite lookup_delete_eq.
  - rewrite lookup_delete_ne by done. apply Hw.
Qed.

Lemma own_id_of_consistent w :
  registry_consistent w → registered_under_own_id w.
Proof.
  intros Hc a bot Hbot. specialize (Hc a). rewrite Hbot in Hc. by destruct Hc.
Qed.

Lemma sendMessage_after_fetch_run bot channelId response t :
  sendMessage_after_fetch B bot channelId response t =
    if negb (ok response)
    then (Threw (DiscordCRMBot.api_error response), t)
    else match message_data response with
         | None => (Threw (Native "SyntaxError" "Unexpected end of JSON input"), t)
         | Some d =>
             (Returned {| DiscordCRMBot.success := true;
                          DiscordCRMBot.message := "Message sent successfully";
                          DiscordCRMBot.messageId := api_id d;
                          DiscordCRMBot.result_content := api_content d |},
              (DiscordCRMBot.recordSentMessage B bot d channelId t).2)
         end.
Proof.
  unfold sendMessage_after_fetch, try_catch at 1.
  destruct (negb (ok response)); [done|].
  unfold bind at 1. destruct (message_data response) as [d|]; [|done].
  cbn [ret]. unfold bind, try_catch.
  by destruct (DiscordCRMBot.recordSentMessage B bot d channelId t) as [[[]|e] t'].
Qed.

Lemma bot_sendMessage_split bot channelId content t :
  DiscordCRMBot.sendMessage B bot channelId content t =
    match post_message B (DiscordCRMBot.token bot) channelId content with
    | inl r => (Threw (Native (rej_name r) (rej_message r)), t)
    | inr response => sendMessage_after_fetch B bot channelId response t
    end.
Proof.
  rewrite bot_sendMessage_run.
  destruct (post_message B _ channelId content) as [r|response]; [done|].
  by rewrite sendMessage_after_fetch_run.
Qed.

Lemma sendMessage_split a userId content w :
  sendMessage B a userId content w =
    match sendMessage_until_fetch B a userId content w with
    | Threw e => (Threw e, w)
    | Returned s => sendMessage_from_fetch B s w
    end.
Proof.
  rewrite sendMessage_run. unfold sendMessage_until_fetch.
  destruct (bots w !! a) as [bot|]; [|done].
  destruct (users_fetch B _ userId) as [r|user]; [done|].
  destruct (createDM B _ user) as [r|dm]; [done|].
  rewrite bot_sendMessage_split.
  destruct (post_message B _ (channel_id dm) content) as [r|response].
  - cbn [fst snd]. by rewrite set_messages_same.
  - unfold sendMessage_from_fetch, try_catch, on_messages, zoom.
    cbn [send_bot send_channel send_response].
    by destruct (sendMessage_after_fetch B bot (channel_id dm) response (messages w))
      as [[res|e] t'].
Qed.

End Suspended.

Section Claims_send_record.
Import BotManager Sample Sample_pair.

(** C5 (as the code has it). On a registry whose sessions are filed
    under their own account ids, when the registry's [sendMessage] returns,
    it returns the backend-assigned id and the echoed content, and it
    leaves the registry alone. With the channel that [createDM] resolved in
    the session's cache, as a direct channel with its peer, the sent row is
    stored exactly when the store holds no row with that remote id: it then
    carries the account, the peer of the channel, direction [sent], the
    echoed content and the remote id. When a row with that remote id is
    already stored, nothing is stored and the send returns all the same. *)
Theorem send_returns_and_records B w a userId content result :
  registered_under_own_id w →
  (sendMessage B a userId content w).1 = Returned result →
  let w' := (sendMessage B a userId content w).2 in
  ∃ bot user dm response d,
    bots w !! a = Some bot
    ∧ users_fetch B (DiscordCRMBot.client bot) userId = inr user
    ∧ createDM B (DiscordCRMBot.client bot) user = inr dm
    ∧ post_message B (DiscordCRMBot.token bot) (channel_id dm) content = inr response
    ∧ message_data response = Some d
    ∧ result = {| DiscordCRMBot.success := true;
                  DiscordCRMBot.message := "Message sent successfully";
                  DiscordCRMBot.messageId := api_id d;
                  DiscordCRMBot.result_content := api_content d |}
    ∧ bots w' = bots w ∧ connections w' = connections w
    ∧ ∀ ch peer,
        cache_get (DiscordCRMBot.client bot) (channel_id dm) = Some ch →
        is_DM ch = true → recipient ch = Some peer →
        (api_id d ∉ remote_ids (messages w) →
         messages w' =
           messages w ++ [{| account_id := a;
                             discord_message_id := Some (api_id d);
                             discord_user_id := user_id peer;
                             username := user_username peer;
                             avatar := avatar_url peer;
                             dir := sent;
                             content := api_content d;
                             timestamp := match api_timestamp d with
                                          | Some ts => ts
                                          | None => now B
                                          end |}])
        ∧ (api_id d ∈ remote_ids (messages w) → messages w' = messages w).
Proof.
  intros Hc Hret w'. subst w'. revert Hret. rewrite sendMessage_run.
  destruct (bots w !! a) as [bot|] eqn:Hbot; [|done].
  destruct (users_fetch B _ userId) as [r|user] eqn:Huser; [done|].
  destruct (createDM B _ user) as [r|dm] eqn:Hdm; [done|].
  rewrite bot_sendMessage_run.
  destruct (post_message B _ (channel_id dm) content) as [r|response] eqn:Hpost; [done|].
  destruct (negb (ok response)); [done|].
  destruct (message_data response) as [d|] eqn:Hd; [|done].
  cbn [fst snd set_messages bots connections messages]. intros [= <-].
  exists bot, user, dm, response, d.
  do 6 (split; [done|]). split; [done|]. split; [done|].
  intros ch peer Hch Hdmch Hpeer. rewrite recordSentMessage_run, Hch, Hdmch, Hpeer.
  cbn [negb]. split.
  - intros Hnew. apply not_stored_iff in Hnew. rewrite Hnew. cbn [snd].
    by rewrite (Hc a bot Hbot).
  - intros Hold. apply stored_iff_remote_id in Hold. by rewrite Hold.
Qed.

Lemma send_returns_and_records_witness :
  let w' := (sendMessage (backend response_ok) "a1" "p1" "hello" world_a1).2 in
  (sendMessage (backend response_ok) "a1" "p1" "hello" world_a1).1
  = Returned {| DiscordCRMBot.success := true;
                DiscordCRMBot.message := "Message sent successfully";
                DiscordCRMBot.messageId := "m2";
                DiscordCRMBot.result_content := "hello" |}
  ∧ messages w' = [{| account_id := "a1"; discord_message_id := Some "m2";
                      discord_user_id := "p1"; username := "peer"; avatar := None;
                      dir := sent; content := "hello"; timestamp := 2000 |}].
Proof.
  destruct (send_returns_and_records (backend response_ok) world_a1
              "a1" "p1" "hello"
              {| DiscordCRMBot.success := true;
                 DiscordCRMBot.message := "Message sent successfully";
                 DiscordCRMBot.messageId := "m2";
                 DiscordCRMBot.result_content := "hello" |})
    as (bot & user & dm & response & d & Hbot & Huser & Hdm & Hpost & Hd & _ & _ & _ & H).
  - intros a bot. unfold world_a1. cbn [bots].
    destruct (decide (a = "a1")) as [->|Hne].
    + rewrite lookup_singleton_eq. by intros [= <-].
    + by rewrite lookup_singleton_ne.
  - reflexivity.
  - split; [reflexivity|].
    injection Hbot as <-. injection Huser as <-. injection Hdm as <-.
    injection Hpost as <-. injection Hd as <-.
    destruct (H dm_peer peer) as [Hnew _]; [reflexivity | reflexivity | reflexivity |].
    cbv zeta. rewrite Hnew; [reflexivity|]. cbn. apply not_elem_of_nil.
Defined.

(** C5 as stated fails. [alice] and [bob] are both accounts of the
    service and [alice] sends "ping" to [bob]. The send of ["a1"] is
    suspended at its request to the backend, which names the message
    ["m9"]; the session of ["a2"] receives the message and stores it; the
    send resumes, its insert is rejected because ["m9"] is stored, and it
    returns the id and the content with no row stored for ["a1"]. *)
Lemma send_without_record_counterexample :
  ∃ s,
    sendMessage_until_fetch backend_pair "a1" "u2" "ping" world_pair = Returned s
    ∧ let w1 := (on_messages (DiscordCRMBot.messageCreate bot_a2 m9_at_bob) world_pair).2 in
      let r := sendMessage_from_fetch backend_pair s w1 in
      r.1 = Returned {| DiscordCRMBot.success := true;
                        DiscordCRMBot.message := "Message sent successfully";
                        DiscordCRMBot.messageId := "m9";
                        DiscordCRMBot.result_content := "ping" |}
      ∧ (account_id <$> messages r.2) = ["a2"]
      ∧ (dir <$> messages r.2) = [received]
      ∧ rows_with_key "a1" "m9" (messages r.2) = [].
Proof.
  eexists. split; [reflexivity|]. cbn. done.
Qed.

End Claims_send_record.

Section Claims_registry_overlap.
Import BotManager Sample.

(** C6, at the input where the code misses it. Two calls of [addBot] for
    one account that is not registered overlap: both pass the test of the
    registry before either login resolves. Both return normally and both
    sessions are started; the second registration replaces the first, so
    the account has two live sessions and one registration, the registry
    no longer agrees with the live sessions, and [removeBot] ends only one
    of the two. *)
Theorem overlapping_addBot_two_sessions B w a token1 token2 client1 client2 :
  registry_consistent w →
  bots w !! a = None →
  login B token1 = inr client1 →
  login B token2 = inr client2 →
  let r := addBot_overlapping B a token1 token2 w in
  r.1 = (Returned tt, Returned tt)
  ∧ live_sessions a r.2 = 2%nat
  ∧ is_Some (bots r.2 !! a)
  ∧ ¬ registry_consistent r.2
  ∧ bots (removeBot a r.2).2 !! a = None
  ∧ live_sessions a (removeBot a r.2).2 = 1%nat.
Proof.
  intros Hc Ha H1 H2 r. subst r. unfold addBot_overlapping, addBot_returns_early.
  rewrite bool_decide_eq_false_2 by (rewrite Ha; by intros [? [=]]).
  cbv zeta. rewrite (addBot_from_start_run B a token1 w), H1. cbn [fst snd].
  rewrite addBot_from_start_run, H2. cbn [fst snd bots connections messages].
  pose proof (Hc a) as Hzero. rewrite Ha in Hzero.
  assert (∀ f t, live_sessions a
                   {| bots := f; connections := a :: a :: connections w; messages := t |}
                 = 2%nat) as Hlive.
  { intros f t. unfold live_sessions in *. cbn [connections].
    rewrite !filter_cons, !decide_True by done. cbn [length]. by rewrite Hzero. }
  split; [done|]. split; [apply Hlive|].
  split; [rewrite lookup_insert_eq; by eexists|].
  split.
  { intros Hbad. specialize (Hbad a). cbn [bots] in Hbad.
    rewrite lookup_insert_eq in Hbad. destruct Hbad as [_ Hbad].
    rewrite Hlive in Hbad. discriminate Hbad. }
  rewrite removeBot_run. cbn [bots connections messages].
  rewrite lookup_insert_eq. cbn [snd bots DiscordCRMBot.accountId remove_one].
  rewrite String.eqb_refl. split; [apply lookup_delete_eq|].
  unfold live_sessions in *. cbn [connections].
  rewrite filter_cons, decide_True by done. cbn [length]. by rewrite Hzero.
Qed.

Lemma overlapping_addBot_two_sessions_witness :
  let r := addBot_overlapping (backend response_ok) "a1" "tok1" "tok1" world0 in
  r.1 = (Returned tt, Returned tt)
  ∧ connections r.2 = ["a1"; "a1"]
  ∧ size (bots r.2) = 1%nat
  ∧ connections (removeBot "a1" r.2).2 = ["a1"]
  ∧ bots (removeBot "a1" r.2).2 !! "a1" = None.
Proof.
  destruct (overlapping_addBot_two_sessions (backend response_ok) world0 "a1"
              "tok1" "tok1" (DiscordCRMBot.client bot_a1) (DiscordCRMBot.client bot_a1))
    as (H1 & _ & _ & _ & H5 & _).
  - intros a. cbn. done.
  - reflexivity.
  - reflexivity.
  - reflexivity.
  - split; [exact H1|]. split; [reflexivity|]. split; [reflexivity|].
    split; [reflexivity | exact H5].
Defined.

End Claims_registry_overlap.
